(** * JobTracker: the job-listing parsing pipeline

    Shallow embedding of [src/helpers/jobListingJson.ts] (the envelope
    validator, header resolver, record builder and record validator
    composed by [parseJobListings]) and of the two earlier variants of the
    same module that take pre-split [{fields, rows}] input.

    The TypeScript code is written against the zod schema library.  A zod
    schema is embedded as the function [JsValue -> option A] computed by
    its [safeParse]: [Some data] for [{success: true, data}] and [None]
    for [{success: false, error}].  The error payload is never inspected
    by the code under study. *)

From Stdlib Require Import Floats Ascii.
From stdpp Require Import base option list strings gmap.

(** ** JavaScript values *)

(** The values that can reach a parameter typed [unknown].  A [number] is
    an IEEE double; an array is a list; an object is its list of own
    enumerable properties, read by the first entry of a key.  [JOther]
    stands for every value zod classifies as none of the above (functions,
    symbols, bigints, [Date], [Map], [Set] and [Promise] instances).
    No property below needs recursion on the nesting of a value, so no
    eliminator is generated. *)
#[local] Unset Elimination Schemes.
Inductive JsValue : Type :=
| JUndefined
| JNull
| JBool (b : bool)
| JNum (n : float)
| JStr (s : string)
| JArr (items : list JsValue)
| JObj (props : list (string * JsValue))
| JOther.
#[local] Set Elimination Schemes.

(** Property read [obj[key]] on a property list: [undefined] when the key
    is absent. *)
Fixpoint getProp (key : string) (props : list (string * JsValue)) : JsValue :=
  match props with
  | [] => JUndefined
  | (k, v) :: rest => if decide (k = key) then v else getProp key rest
  end.

(** A spreadsheet cell after validation: [string | number | boolean]. *)
Inductive Cell : Type :=
| CStr (s : string)
| CNum (n : float)
| CBool (b : bool).

Definition cellToJs (c : Cell) : JsValue :=
  match c with
  | CStr s => JStr s
  | CNum n => JNum n
  | CBool b => JBool b
  end.

Definition rowToJs (row : list Cell) : JsValue := JArr (cellToJs <$> row).

(** ** The zod combinators the module uses *)

Module Zod.

(** [z.string()] *)
Definition string (v : JsValue) : option String.string :=
  match v with JStr s => Some s | _ => None end.

(** [z.number()]: a [number] other than [NaN]. *)
Definition number (v : JsValue) : option float :=
  match v with
  | JNum n => if PrimFloat.is_nan n then None else Some n
  | _ => None
  end.

(** [z.boolean()] *)
Definition boolean (v : JsValue) : option bool :=
  match v with JBool b => Some b | _ => None end.

(** [z.literal(s)] for a string literal. *)
Definition literal (s : String.string) (v : JsValue) : option String.string :=
  match v with
  | JStr s' => if decide (s' = s) then Some s else None
  | _ => None
  end.

(** [z.union([a, b])]: the first option that parses. *)
Definition union {A} (a b : JsValue → option A) (v : JsValue) : option A :=
  match a v with Some x => Some x | None => b v end.

(** An array schema: the element schema and the one length bound it
    keeps.  [.min(n)] replaces the bound, and [.nonempty()] is [.min(1)],
    so [s.nonempty().min(n)] checks [n] only. *)
Record ZodArray (A : Type) : Type := mkArray {
  element : JsValue → option A;
  minLength : option nat;
}.
Arguments mkArray {A} _ _.
Arguments element {A} _ _.
Arguments minLength {A} _.

Definition array {A} (elem : JsValue → option A) : ZodArray A :=
  mkArray elem None.

Definition min {A} (n : nat) (s : ZodArray A) : ZodArray A :=
  mkArray (element s) (Some n).

Definition nonempty {A} (s : ZodArray A) : ZodArray A := min 1 s.

Definition parseArray {A} (s : ZodArray A) (v : JsValue) : option (list A) :=
  match v with
  | JArr items =>
      xs ← mapM (element s) items;
      match minLength s with
      | Some n => if decide (n ≤ length xs)%nat then Some xs else None
      | None => Some xs
      end
  | _ => None
  end.

(** [schema.refine(check)]: the parsed value must pass [check]. *)
Definition refine {A} (check : A → bool) (p : JsValue → option A)
    (v : JsValue) : option A :=
  x ← p v; if check x then Some x else None.

(** [z.string().min(n)] applied to the value of an optional property.
    The module uses it with [n = 1] only, where the bound says that the
    string is not empty, whatever the unit its length is counted in. *)
Definition stringMin (n : nat) (field : option String.string)
    : option String.string :=
  s ← field; if decide (n ≤ String.length s)%nat then Some s else None.

End Zod.

(** The two string formats the record validator delegates to:
    [z.string().datetime()], a regular expression fixed by the zod
    release, and [z.string().url()], which asks the host's [URL]
    constructor.  Neither is code of the repository; the pipeline is
    verified for any pair of checks. *)
Class StringFormats : Type := {
  isDatetime : string → bool;
  isUrl : string → bool;
}.

(** ** Declarations shared by the three variants of the module *)

(** All required fields for a job listing. *)
Definition requiredFields : list string :=
  ["company"; "jobTitle"; "location"; "appStatus"; "url"; "notes";
   "dateSubmitted"; "dateLastModified"].

Definition requiredFieldsSet : gset string := list_to_set requiredFields.

(** [requiredFieldsSet.has(value)] on a string. *)
Definition isRequiredField (value : string) : bool :=
  bool_decide (value ∈ requiredFieldsSet).

(** Validator for any cell value that is JSON-serializable:
    [z.union([z.string(), z.number(), z.boolean()])]. *)
Definition jsonSheetCellValidator : JsValue → option Cell :=
  Zod.union (λ v, CStr <$> Zod.string v)
    (Zod.union (λ v, CNum <$> Zod.number v) (λ v, CBool <$> Zod.boolean v)).

(** Validator for a row of cell values:
    [jsonSheetCellValidator.array().nonempty().min(requiredFields.length)]. *)
Definition jsonSheetRowValidator : Zod.ZodArray Cell :=
  Zod.min (length requiredFields)
    (Zod.nonempty (Zod.array jsonSheetCellValidator)).

(** The input of the record builder: field names and data rows. *)
Record ApiData : Type := mkApiData {
  fields : list string;
  rows : list (list Cell);
}.

(** First refinement of [fields]:
    [apiFields.length === new Set(apiFields).size]. *)
Definition noDuplicateFields (apiFields : list string) : bool :=
  bool_decide (length apiFields = size (list_to_set apiFields : gset string)).

(** Second refinement of [fields]:
    [requiredFields.every((rf) => apiFields.includes(rf))]. *)
Definition allRequiredPresent (apiFields : list string) : bool :=
  forallb (λ rf, bool_decide (rf ∈ apiFields)) requiredFields.

(** Validator for API data that has been split into separate fields and
    data rows ([apiDataValidator]; [apiDataSchema] in the variants). *)
Definition apiDataValidator (v : JsValue) : option ApiData :=
  match v with
  | JObj props =>
      fs ← Zod.refine allRequiredPresent
             (Zod.refine noDuplicateFields
                (Zod.parseArray
                   (Zod.min (length requiredFields) (Zod.array Zod.string))))
             (getProp "fields" props);
      rs ← Zod.parseArray (Zod.array (Zod.parseArray jsonSheetRowValidator))
             (getProp "rows" props);
      Some (mkApiData fs rs)
  | _ => None
  end.

(** [PartialJobListing]: the object the record builder fills in.  Only
    required-field keys are ever assigned at the top level and only with
    strings, so the top level is a map from property name to string next
    to the [extraFields] object. *)
Record PartialJobListing : Type := mkPartial {
  required : gmap string string;
  partialExtraFields : gmap string Cell;
}.

(** [{ extraFields: {} }] *)
Definition emptyRecord : PartialJobListing := mkPartial ∅ ∅.

(** [record[recordKey] = cellValue] for a required-field key. *)
Definition setRequired (recordKey cellValue : string)
    (record : PartialJobListing) : PartialJobListing :=
  mkPartial (<[recordKey := cellValue]> (required record))
    (partialExtraFields record).

(** [record.extraFields[recordKey] = cellValue].  [extraFields] is an
    ordinary object literal, so the key ["__proto__"] reaches the setter
    inherited from [Object.prototype], which ignores a value that is
    neither an object nor [null]: the assignment of a cell under that key
    leaves the object as it was.  Every other key becomes an own
    property. *)
Definition setExtraField (recordKey : string) (cellValue : Cell)
    (record : PartialJobListing) : PartialJobListing :=
  if decide (recordKey = "__proto__") then record
  else mkPartial (required record)
         (<[recordKey := cellValue]> (partialExtraFields record)).

(** A job listing added by the user: [z.infer<typeof jobListingValidator>]. *)
Record JobListing : Type := mkJobListing {
  company : string;
  jobTitle : string;
  appStatus : string;
  dateSubmitted : string;
  dateLastModified : string;
  extraFields : gmap string Cell;
  location : string;
  notes : string;
  url : string;
}.

(** [z.record(jsonSheetCellValidator)] on the [extraFields] object: every
    own property is validated again as a cell. *)
Definition recordOfCells (m : gmap string Cell) : option (gmap string Cell) :=
  if decide (map_Forall (λ _ c, is_Some (jsonSheetCellValidator (cellToJs c))) m)
  then Some m else None.

Section Validator.
Context `{StringFormats}.

(** [z.string().datetime()] on an optional property. *)
Definition datetimeString (field : option string) : option string :=
  s ← field; if isDatetime s then Some s else None.

(** [z.union([z.literal(""), z.string().url()])] on an optional property. *)
Definition urlOrEmpty (field : option string) : option string :=
  s ← field;
  if decide (s = "") then Some "" else if isUrl s then Some s else None.

(** Validator for a [JobListing] object ([jobListingValidator];
    [jobListingSchema] in the oldest variant). *)
Definition jobListingValidator (record : PartialJobListing)
    : option JobListing :=
  company ← Zod.stringMin 1 (required record !! "company");
  jobTitle ← Zod.stringMin 1 (required record !! "jobTitle");
  appStatus ← Zod.stringMin 1 (required record !! "appStatus");
  dateSubmitted ← datetimeString (required record !! "dateSubmitted");
  dateLastModified ← datetimeString (required record !! "dateLastModified");
  extraFields ← recordOfCells (partialExtraFields record);
  location ← required record !! "location";
  notes ← required record !! "notes";
  url ← urlOrEmpty (required record !! "url");
  Some (mkJobListing company jobTitle appStatus dateSubmitted
          dateLastModified extraFields location notes url).

(** [records.flatMap((record) => { const r = jobListingValidator.safeParse(record);
    return r.success ? [r.data] : []; })] *)
Definition validRecords (records : list PartialJobListing) : list JobListing :=
  records ≫= λ record,
    match jobListingValidator record with
    | Some data => [data]
    | None => []
    end.

End Validator.

(** ** The record builder *)

(** [new Map(apiData.fields.map((field, index) => [index, field]))] *)
Definition fieldIndices (apiFields : list string) : gmap nat string :=
  map_seq 0 apiFields.

(** [for (const [index, cellValue] of row.entries()) body], started at
    [index], threading the object the body mutates. *)
Fixpoint forEntries {R} (body : nat → Cell → R → R) (index : nat)
    (row : list Cell) (record : R) : R :=
  match row with
  | [] => record
  | cellValue :: rest =>
      forEntries body (S index) rest (body index cellValue record)
  end.

(** The loop body of [src/helpers/jobListingJson.ts] (the same text in
    the newer pre-split variant). *)
Definition assignCell (indices : gmap nat string) (index : nat)
    (cellValue : Cell) (record : PartialJobListing) : PartialJobListing :=
  let recordKey := default "" (indices !! index) in
  if isRequiredField recordKey then
    match cellValue with
    | CStr s => setRequired recordKey s record
    | _ => record
    end
  else setExtraField recordKey cellValue record.

(** The callback of [apiData.rows.map]: one partial record per row. *)
Definition rowToRecord (apiFields : list string) (row : list Cell)
    : PartialJobListing :=
  forEntries (assignCell (fieldIndices apiFields)) 0 row emptyRecord.

(** The key the loop body resolves for a column. *)
Definition keyAt (names : list string) (index : nat) : string :=
  default "" (fieldIndices names !! index).

(** ** [src/helpers/jobListingJson.ts]: the pipeline on raw API data *)

Module JobListingJson.

(** The transform of [initialResponseProcessor]:
    [const [fieldsRow, ...dataRows] = data.values;
     return { fields: fieldsRow, rows: dataRows };] *)
Definition splitRows (values : list (list Cell)) : JsValue :=
  match values with
  | fieldsRow :: dataRows =>
      JObj [("fields", rowToJs fieldsRow); ("rows", JArr (rowToJs <$> dataRows))]
  | [] => JObj [("fields", JUndefined); ("rows", JArr [])]
  end.

(** Takes the initial API response, validates its structure, strips
    extra properties and splits the values into fields and data rows. *)
Definition initialResponseProcessor (v : JsValue) : option JsValue :=
  match v with
  | JObj props =>
      _ ← Zod.literal "ROWS" (getProp "majorDimension" props);
      values ← Zod.parseArray
                 (Zod.min 2
                    (Zod.nonempty
                       (Zod.array (Zod.parseArray jsonSheetRowValidator))))
                 (getProp "values" props);
      Some (splitRows values)
  | _ => None
  end.

Section Pipeline.
Context `{StringFormats}.

(** [apiDataValidator] followed by the two transforms: build the partial
    records, then keep the ones that validate. *)
Definition recordsTransformer (v : JsValue) : option (list JobListing) :=
  apiData ← apiDataValidator v;
  Some (validRecords (rowToRecord (fields apiData) <$> rows apiData)).

(** [z.pipeline(initialResponseProcessor, recordsTransformer)] *)
Definition jobListingDataPipeline (v : JsValue) : option (list JobListing) :=
  initialResponseProcessor v ≫= recordsTransformer.

(** Takes any kind of Google Sheets API data and parses out as many job
    listings as it can.  Will always return an array. *)
Definition parseJobListings (apiData : JsValue) : list JobListing :=
  match jobListingDataPipeline apiData with
  | Some data => data
  | None => []
  end.

End Pipeline.
End JobListingJson.

(** ** The newer pre-split variant ([src/unnamed/part_002]) *)

Module PreSplit.
Section Pipeline.
Context `{StringFormats}.

Definition recordsTransformer (v : JsValue) : option (list PartialJobListing) :=
  apiData ← apiDataValidator v;
  Some (rowToRecord (fields apiData) <$> rows apiData).

Definition parseJobListings (apiData : JsValue) : list JobListing :=
  match recordsTransformer apiData with
  | None => []
  | Some records => validRecords records
  end.

End Pipeline.
End PreSplit.

(** ** The older pre-split variant ([src/helpers.ts/jobListingJson.ts]) *)

Module HelpersTs.

(** The loop body of this variant: [recordKey] may be [undefined], a
    required column takes string cells only, and the only other column
    stored is the one named ["extraFields"]. *)
Definition assignCell (indices : gmap nat string) (index : nat)
    (cellValue : Cell) (result : PartialJobListing) : PartialJobListing :=
  let recordKey := indices !! index in
  match recordKey, cellValue with
  | Some key, CStr s =>
      if isRequiredField key then setRequired key s result
      else if decide (key = "extraFields") then setExtraField key cellValue result
      else result
  | Some key, _ =>
      if decide (key = "extraFields") then setExtraField key cellValue result
      else result
  | None, _ => result
  end.

Definition rowToRecord (apiFields : list string) (row : list Cell)
    : PartialJobListing :=
  forEntries (assignCell (fieldIndices apiFields)) 0 row emptyRecord.

Section Pipeline.
Context `{StringFormats}.

Definition recordsTransformer (v : JsValue) : option (list PartialJobListing) :=
  apiData ← apiDataValidator v;
  Some (rowToRecord (fields apiData) <$> rows apiData).

Definition parseJobListings (apiData : JsValue) : list JobListing :=
  match recordsTransformer apiData with
  | None => []
  | Some records => validRecords records
  end.

End Pipeline.
End HelpersTs.

(** ** What the validators accept *)

(** A cell passes [jsonSheetCellValidator] again: it is not [NaN]. *)
Definition validCell (c : Cell) : bool :=
  match c with
  | CNum n => negb (PrimFloat.is_nan n)
  | _ => true
  end.

(** A raw value is a text, a number other than [NaN], or a boolean. *)
Definition scalarJs (v : JsValue) : bool :=
  match v with
  | JStr _ | JBool _ => true
  | JNum n => negb (PrimFloat.is_nan n)
  | _ => false
  end.

(** A raw value is an array of at least [n] scalars. *)
Definition scalarRowJs (n : nat) (v : JsValue) : bool :=
  match v with
  | JArr cells => bool_decide (n ≤ length cells)%nat && forallb scalarJs cells
  | _ => false
  end.

(** The raw shape [initialResponseProcessor] lets through. *)
Definition envelopeAccepted (v : JsValue) : bool :=
  match v with
  | JObj props =>
      match getProp "majorDimension" props, getProp "values" props with
      | JStr dimension, JArr table =>
          bool_decide (dimension = "ROWS")
          && bool_decide (2 ≤ length table)%nat
          && forallb (scalarRowJs (length requiredFields)) table
      | _, _ => false
      end
  | _ => false
  end.

(** The header conditions of [apiDataValidator], on field names. *)
Definition headerAccepted (names : list string) : Prop :=
  (length requiredFields ≤ length names)%nat
  ∧ NoDup names
  ∧ ∀ rf, rf ∈ requiredFields → rf ∈ names.

(** A row of cells the envelope lets through. *)
Definition rowAccepted (row : list Cell) : Prop :=
  (length requiredFields ≤ length row)%nat ∧ Forall (λ c, validCell c = true) row.

(** The API response with the given header and data rows and nothing
    else: [{ majorDimension: "ROWS", values: [header, ...dataRows] }]. *)
Definition sheet (header : JsValue) (dataRows : list JsValue) : JsValue :=
  JObj [("majorDimension", JStr "ROWS"); ("values", JArr (header :: dataRows))].

(** A header row of field names, as raw cells. *)
Definition headerJs (names : list string) : JsValue := JArr (JStr <$> names).

(** The header condition of the specification, on the raw header row:
    an array of names with at least 8 entries, no duplicate, and every
    required field name among them. *)
Definition headerRowAccepted (header : JsValue) : Prop :=
  ∃ names, header = headerJs names ∧ headerAccepted names.

(** A raw row the envelope lets through. *)
Definition envelopeRow (row : JsValue) : Prop :=
  scalarRowJs (length requiredFields) row = true.

(** A key the record builder can store in [extraFields]. *)
Definition extraKeyOk (k : string) : Prop :=
  isRequiredField k = false ∧ k ≠ "__proto__".

Section Derived.
Context {formats : StringFormats}.

(** The listing of one data row under a header, if the row yields one. *)
Definition rowListing (names : list string) (row : list Cell) : option JobListing :=
  jobListingValidator (rowToRecord names row).

(** The per-field constraints of a [JobListing]. *)
Definition wfJobListing (l : JobListing) : Prop :=
  (1 ≤ String.length (company l))%nat
  ∧ (1 ≤ String.length (jobTitle l))%nat
  ∧ (1 ≤ String.length (appStatus l))%nat
  ∧ isDatetime (dateSubmitted l) = true
  ∧ isDatetime (dateLastModified l) = true
  ∧ (url l = "" ∨ isUrl (url l) = true)
  ∧ map_Forall (λ _ c, validCell c = true) (extraFields l).

(** The output of the sheet that holds one data row under a header. *)
Definition rowOutput (header row : JsValue) : list JobListing :=
  JobListingJson.parseJobListings (sheet header [row]).

End Derived.

(** ** The claims of the specification, in its words, where the code
       differs *)

(** The envelope condition in the words of the specification: an object
    with a [values] property that is a table of at least 2 rows, every
    row non-empty and made of text, number or boolean cells only. *)
Definition envelopeAsSpecified (v : JsValue) : bool :=
  let scalar cell :=
    match cell with JStr _ | JNum _ | JBool _ => true | _ => false end in
  let row r :=
    match r with
    | JArr cells => bool_decide (1 ≤ length cells)%nat && forallb scalar cells
    | _ => false
    end in
  match v with
  | JObj props =>
      match getProp "values" props with
      | JArr table => bool_decide (2 ≤ length table)%nat && forallb row table
      | _ => false
      end
  | _ => false
  end.

(** The envelope claim in the words of the specification. *)
Definition EnvelopeAsSpecified : Prop :=
  ∀ v, is_Some (JobListingJson.initialResponseProcessor v)
       ↔ envelopeAsSpecified v = true.

(** Row independence as the specification words it: in an accepted
    table, removing data row [i] or replacing its contents by anything
    keeps every listing of another row in or out of the output. *)
Definition RowIndependenceAsSpecified (formats : StringFormats) : Prop :=
  ∀ header front back row_i row_i' row_j l,
    is_Some (JobListingJson.jobListingDataPipeline
               (sheet header (front ++ row_i :: back))) →
    row_j ∈ front ++ back →
    l ∈ rowOutput header row_j →
    (l ∈ JobListingJson.parseJobListings (sheet header (front ++ row_i :: back))
     ↔ l ∈ JobListingJson.parseJobListings (sheet header (front ++ back)))
    ∧ (l ∈ JobListingJson.parseJobListings (sheet header (front ++ row_i :: back))
       ↔ l ∈ JobListingJson.parseJobListings
               (sheet header (front ++ row_i' :: back))).

(** Coverage of extra columns as the specification words it, with no
    condition on the column name or the row length. *)
Definition ExtraColumnsAsSpecified (formats : StringFormats) : Prop :=
  ∀ apiData d parsed row l c name cell,
    JobListingJson.initialResponseProcessor apiData = Some d →
    apiDataValidator d = Some parsed →
    row ∈ rows parsed →
    jobListingValidator (rowToRecord (fields parsed) row) = Some l →
    fields parsed !! c = Some name →
    isRequiredField name = false →
    row !! c = Some cell →
    extraFields l !! name = Some cell.

(** The short-row claim as the specification words it: any non-empty row
    of scalar cells that is shorter than the header leaves the rest of
    an otherwise valid table unaffected. *)
Definition ShortRowAsSpecified (formats : StringFormats) : Prop :=
  ∀ names cells front back,
    headerAccepted names →
    cells ≠ [] → Forall (λ c, validCell c = true) cells →
    (length cells < length names)%nat →
    Forall envelopeRow (front ++ back) →
    JobListingJson.parseJobListings
      (sheet (headerJs names) (front ++ rowToJs cells :: back))
    = (front ≫= rowOutput (headerJs names))
        ++ option_list (jobListingValidator (rowToRecord names cells))
        ++ (back ≫= rowOutput (headerJs names)).

(** ** Re-serialization of a parse result

    The write path ([toNewSheetRows] in the React hooks) has an empty
    body in the repository. *)

(** Modelled from the spec: the cells of the 8 required columns of a
    listing, in the order of [requiredFields]. *)
Definition requiredCells (l : JobListing) : list Cell :=
  [CStr (company l); CStr (jobTitle l); CStr (location l); CStr (appStatus l);
   CStr (url l); CStr (notes l); CStr (dateSubmitted l);
   CStr (dateLastModified l)].

(** Modelled from the spec: the cells of the extra columns of a listing,
    in column order, up to the first column the listing has no value
    for. *)
Fixpoint extraCells (extraKeys : list string) (m : gmap string Cell) : list Cell :=
  match extraKeys with
  | [] => []
  | k :: ks =>
      match m !! k with
      | Some c => c :: extraCells ks m
      | None => []
      end
  end.

(** Modelled from the spec: the data row of a listing, when each of its
    extra fields gets a cell. *)
Definition listingToRow (extraKeys : list string) (l : JobListing)
    : option (list Cell) :=
  let cells := extraCells extraKeys (extraFields l) in
  if decide (length cells = size (extraFields l))
  then Some (requiredCells l ++ cells)
  else None.

(** Modelled from the spec: [k] is an extra-field key of one of the
    listings. *)
Definition isExtraKeyOf (listings : list JobListing) (k : string) : bool :=
  existsb (λ l, bool_decide (is_Some (extraFields l !! k))) listings.

(** Modelled from the spec: the re-serialization of a parse result into
    an equivalent sheet, which the repository only stubs
    ([toNewSheetRows] has an empty body).  The header is the 8 required
    field names followed by the extra-field keys, each once, in a chosen
    order; every listing becomes one data row with its cells in the
    order of the columns.  A row ends where its listing has no value for
    an extra column, as a data row of a sheet may be shorter than the
    header; the sheet exists when, in the chosen order, every extra field
    of every listing gets a cell. *)
Definition toSheet (extraKeys : list string) (listings : list JobListing)
    : option JsValue :=
  if bool_decide (NoDup extraKeys) && forallb (isExtraKeyOf listings) extraKeys
  then
    table ← mapM (listingToRow extraKeys) listings;
    Some (sheet (headerJs (requiredFields ++ extraKeys)) (rowToJs <$> table))
  else None.

(** An order of extra columns in which every parse result under the
    header [names] can be laid out: the columns of the header that some
    listing has a value for, in header order, and behind them the empty
    name under which cells beyond the header are stored. *)
Definition extraKeyOrder (names : list string) (listings : list JobListing)
    : list string :=
  filter (λ k, isExtraKeyOf listings k = true)
    (names ++ if decide ("" ∈ names) then [] else [""]).

(** ** A concrete pair of string checks, to run the pipeline on examples *)

Definition isDigit (a : ascii) : bool :=
  let n := nat_of_ascii a in (48 <=? n)%nat && (n <=? 57)%nat.

(** Match [s] against a template in which [d] stands for one decimal
    digit and every other character for itself; the rest of [s] is
    returned. *)
Fixpoint matchTemplate (template s : list ascii) : option (list ascii) :=
  match template, s with
  | [], _ => Some s
  | t :: template', a :: s' =>
      if (if Ascii.eqb t "d" then isDigit a else Ascii.eqb t a)
      then matchTemplate template' s'
      else None
  | _ :: _, [] => None
  end.

Fixpoint dropDigits (s : list ascii) : list ascii :=
  match s with
  | a :: s' => if isDigit a then dropDigits s' else s
  | [] => []
  end.

(** The default expression of [z.string().datetime()] (zod 3.20):
    [^\d{4}-\d{2}-\d{2}T\d{2}:\d{2}:\d{2}(\.\d+)?Z$]. *)
Definition datetimeRegex (s : string) : bool :=
  match matchTemplate (String.list_ascii_of_string "dddd-dd-ddTdd:dd:dd")
          (String.list_ascii_of_string s) with
  | Some rest =>
      match rest with
      | ["Z"%char] => true
      | "."%char :: d :: rest' =>
          isDigit d
          && match dropDigits rest' with ["Z"%char] => true | _ => false end
      | _ => false
      end
  | None => false
  end.

Definition isHostOrPathChar (a : ascii) : bool :=
  let n := nat_of_ascii a in
  isDigit a || ((65 <=? n)%nat && (n <=? 90)%nat)
  || ((97 <=? n)%nat && (n <=? 122)%nat)
  || Ascii.eqb a "." || Ascii.eqb a "-" || Ascii.eqb a "/".

(** A narrow stand-in for the [URL] constructor, for the examples only:
    [http://] or [https://], a letter or digit, then letters, digits,
    dots, hyphens and slashes.  A string with no scheme, such as
    ["not-a-url"], is refused, as the constructor refuses it. *)
Definition httpUrl (s : string) : bool :=
  let body rest :=
    match rest with
    | a :: rest' =>
        isHostOrPathChar a && negb (Ascii.eqb a ".") && negb (Ascii.eqb a "-")
        && negb (Ascii.eqb a "/") && forallb isHostOrPathChar rest'
    | [] => false
    end in
  let chars := String.list_ascii_of_string s in
  match matchTemplate (String.list_ascii_of_string "https://") chars with
  | Some rest => body rest
  | None =>
      match matchTemplate (String.list_ascii_of_string "http://") chars with
      | Some rest => body rest
      | None => false
      end
  end.

Definition exampleFormats : StringFormats :=
  {| isDatetime := datetimeRegex; isUrl := httpUrl |}.

(** ** Example tables *)

Module Examples.

Definition header9 : JsValue := headerJs (requiredFields ++ ["source"]).

(** The data row of the happy path. *)
Definition acmeRow : list JsValue :=
  [JStr "Acme"; JStr "Engineer"; JStr "Remote"; JStr "Applied";
   JStr "https://acme.example/job"; JStr "";
   JStr "2024-01-01T00:00:00.000Z"; JStr "2024-01-02T00:00:00.000Z";
   JStr "LinkedIn"].

Definition acmeListing : JobListing :=
  mkJobListing "Acme" "Engineer" "Applied" "2024-01-01T00:00:00.000Z"
    "2024-01-02T00:00:00.000Z" {["source" := CStr "LinkedIn"]}
    "Remote" "" "https://acme.example/job".

Definition globexRow : list JsValue :=
  [JStr "Globex"; JStr "Analyst"; JStr ""; JStr "Interview"; JStr "";
   JStr "met the team"; JStr "2024-02-01T09:30:00Z"; JStr "2024-02-03T10:00:00Z";
   JNum 3%float].

Definition globexListing : JobListing :=
  mkJobListing "Globex" "Analyst" "Interview" "2024-02-01T09:30:00Z"
    "2024-02-03T10:00:00Z" {["source" := CNum 3%float]}
    "" "met the team" "".

(** The happy-path row with a string that is no URL in the [url] column. *)
Definition badUrlRow : list JsValue :=
  [JStr "Initech"; JStr "Engineer"; JStr "Remote"; JStr "Applied";
   JStr "not-a-url"; JStr "";
   JStr "2024-01-01T00:00:00.000Z"; JStr "2024-01-02T00:00:00.000Z";
   JStr "LinkedIn"].

(** The same rows as validated cells. *)
Definition acmeCells : list Cell :=
  [CStr "Acme"; CStr "Engineer"; CStr "Remote"; CStr "Applied";
   CStr "https://acme.example/job"; CStr "";
   CStr "2024-01-01T00:00:00.000Z"; CStr "2024-01-02T00:00:00.000Z";
   CStr "LinkedIn"].

Definition globexCells : list Cell :=
  [CStr "Globex"; CStr "Analyst"; CStr ""; CStr "Interview"; CStr "";
   CStr "met the team"; CStr "2024-02-01T09:30:00Z"; CStr "2024-02-03T10:00:00Z";
   CNum 3%float].

Definition badUrlCells : list Cell :=
  [CStr "Initech"; CStr "Engineer"; CStr "Remote"; CStr "Applied";
   CStr "not-a-url"; CStr "";
   CStr "2024-01-01T00:00:00.000Z"; CStr "2024-01-02T00:00:00.000Z";
   CStr "LinkedIn"].

(** A header with a ninth column named by the empty string, and a row
    of ten cells under it. *)
Definition headerEmptyName : list string := requiredFields ++ [""].

Definition overflowCells : list Cell :=
  [CStr "Acme"; CStr "Engineer"; CStr "Remote"; CStr "Applied";
   CStr ""; CStr "";
   CStr "2024-01-01T00:00:00.000Z"; CStr "2024-01-02T00:00:00.000Z";
   CStr "a"; CStr "b"].

Definition overflowListing : JobListing :=
  mkJobListing "Acme" "Engineer" "Applied" "2024-01-01T00:00:00.000Z"
    "2024-01-02T00:00:00.000Z" {["" := CStr "b"]} "Remote" "" "".

(** The Acme row without its ninth cell, and a row of seven cells. *)
Definition acmeCells8 : list Cell := take 8 acmeCells.

Definition acmeListing8 : JobListing :=
  mkJobListing "Acme" "Engineer" "Applied" "2024-01-01T00:00:00.000Z"
    "2024-01-02T00:00:00.000Z" ∅ "Remote" "" "https://acme.example/job".

Definition sevenCells : list Cell := take 7 acmeCells.

(** The Acme and Globex rows under a header in another column order,
    in a response that also carries a [range]. *)
Definition shuffledResponse : JsValue :=
  JObj [("range", JStr "Sheet1!A1:I3");
        ("majorDimension", JStr "ROWS");
        ("values",
         JArr [headerJs ["dateLastModified"; "source"; "company"; "jobTitle";
                         "location"; "appStatus"; "url"; "notes"; "dateSubmitted"];
               JArr [JStr "2024-01-02T00:00:00.000Z"; JStr "LinkedIn"; JStr "Acme";
                     JStr "Engineer"; JStr "Remote"; JStr "Applied";
                     JStr "https://acme.example/job"; JStr "";
                     JStr "2024-01-01T00:00:00.000Z"];
               JArr [JStr "2024-02-03T10:00:00Z"; JNum 3%float; JStr "Globex";
                     JStr "Analyst"; JStr ""; JStr "Interview"; JStr "";
                     JStr "met the team"; JStr "2024-02-01T09:30:00Z"]])].

(** Pre-split input: the happy path as [{ fields, rows }]. *)
Definition preSplitAcme : JsValue :=
  JObj [("fields", header9); ("rows", JArr [JArr acmeRow])].

Definition parse : JsValue → list JobListing :=
  @JobListingJson.parseJobListings exampleFormats.

End Examples.

(** * The rest of the helpers and their callers *)

(** ** [helpers/sheetsApi.ts]: general Google Sheets interop *)

(** An [Error] object: [new Error(message)], the [ZodError] that
    [schema.parse] throws, or an error of the language itself. *)
Inductive JsError : Type :=
| ErrorMessage (message : string)
| ZodError
| TypeError (message : string).

(** What a [throw] or a rejected promise carries: an [Error] object or
    any other value.  Of a value that is no [Error] the code reads its
    conversion to a string, in a template literal, and that conversion
    runs code of the value: it gives a [text], or it throws, as it does
    with a [TypeError] for a symbol and for an object whose [toString]
    and [valueOf] cannot be called, and with whatever a [toString] of the
    value's own throws. *)
Inductive Exception : Type :=
| ExnError (e : JsError)
| ExnValue (v : JsValue) (text : string)
| ExnUnprintable (v : JsValue) (raised : Exception).

(** The completion of a call, or the settlement of an awaited promise. *)
Inductive Outcome (A : Type) : Type :=
| Returns (a : A)
| Throws (e : Exception).
Arguments Returns {A} _.
Arguments Throws {A} _.

(** [Result<T>] of [types/general.ts]: an operation that can fail. *)
Inductive Result (A : Type) : Type :=
| ResultOk (data : A)
| ResultErr (error : JsError).
Arguments ResultOk {A} _.
Arguments ResultErr {A} _.

(** What the code reads of a fetched [Response]: its [ok] flag and the
    settlement of [response.json()]. *)
Record Response : Type := mkResponse {
  ok : bool;
  json : Outcome JsValue;
}.

Module SheetsApi.

(** [jsonSheetCellValidator.array().nonempty()] *)
Definition jsonSheetRowValidator : Zod.ZodArray Cell :=
  Zod.nonempty (Zod.array jsonSheetCellValidator).

(** [SheetsApiResponse]; its [majorDimension] is the literal ["ROWS"]. *)
Record SheetsApiResponse : Type := mkSheetsApiResponse {
  range : string;
  values : list (list Cell);
}.

(** [z.object({ range: z.string(), majorDimension: z.literal("ROWS"),
    values: z.array(jsonSheetRowValidator).nonempty() })] *)
Definition apiResponseValidator (v : JsValue) : option SheetsApiResponse :=
  match v with
  | JObj props =>
      range ← Zod.string (getProp "range" props);
      _ ← Zod.literal "ROWS" (getProp "majorDimension" props);
      values ← Zod.parseArray
                 (Zod.nonempty (Zod.array (Zod.parseArray jsonSheetRowValidator)))
                 (getProp "values" props);
      Some (mkSheetsApiResponse range values)
  | _ => None
  end.

(** The parsed response as the object zod returns. *)
Definition responseToJs (data : SheetsApiResponse) : JsValue :=
  JObj [("range", JStr (range data));
        ("majorDimension", JStr "ROWS");
        ("values", JArr (rowToJs <$> values data))].

(** [err instanceof Error ? err : new Error(`Non-error ${err} thrown`)]:
    what converting [err] to a string throws is thrown from here. *)
Definition formatError (err : Exception) : Outcome JsError :=
  match err with
  | ExnError e => Returns e
  | ExnValue _ text => Returns (ErrorMessage ("Non-error " +:+ text +:+ " thrown"))
  | ExnUnprintable _ raised => Throws raised
  end.

(** The [catch] block: [return { ok: false, error: formattedError }]. *)
Definition caught (err : Exception) : Outcome (Result SheetsApiResponse) :=
  match formatError err with
  | Returns formattedError => Returns (ResultErr formattedError)
  | Throws raised => Throws raised
  end.

(** [getSpreadsheetData], as a function of what [fetch] settles to.  The
    [try] block covers the reading of the body and its validation; what
    the [catch] block throws leaves the function. *)
Definition getSpreadsheetData (fetched : Outcome Response)
    : Outcome (Result SheetsApiResponse) :=
  match fetched with
  | Throws e => Throws e
  | Returns response =>
      if negb (ok response)
      then Throws (ExnError (ErrorMessage "Error during GET request."))
      else
        match json response with
        | Throws err => caught err
        | Returns result =>
            match apiResponseValidator result with
            | Some data => Returns (ResultOk data)
            | None => caught (ExnError ZodError)
            end
        end
  end.

End SheetsApi.

(** ** [helpers/jobListings.ts]: the pipeline on top of [sheetsApi] *)

Module JobListings.

(** [apiResponseValidator.transform((data) => { const [fieldRow,
    ...dataRows] = data.values; return { fields: fieldRow, rows: dataRows }; })] *)
Definition rowSplitTransformer (v : JsValue) : option JsValue :=
  data ← SheetsApi.apiResponseValidator v;
  Some (JobListingJson.splitRows (SheetsApi.values data)).

(** The validated input of [toJobListings]. *)
Definition jobListingRowValidator (v : JsValue) : option ApiData :=
  match v with
  | JObj props =>
      fs ← Zod.refine allRequiredPresent
             (Zod.refine noDuplicateFields
                (Zod.parseArray
                   (Zod.min (length requiredFields) (Zod.array Zod.string))))
             (getProp "fields" props);
      rs ← Zod.parseArray
             (Zod.array
                (Zod.parseArray
                   (Zod.min (length requiredFields) SheetsApi.jsonSheetRowValidator)))
             (getProp "rows" props);
      Some (mkApiData fs rs)
  | _ => None
  end.

Section Pipeline.
Context `{StringFormats}.

(** [jobListingRowValidator.transform(toJobListings)] *)
Definition jobListingTransformer (v : JsValue) : option (list JobListing) :=
  apiData ← jobListingRowValidator v;
  let partials := rowToRecord (fields apiData) <$> rows apiData in
  Some (validRecords partials).

(** [z.pipeline(rowSplitTransformer, jobListingTransformer)] *)
Definition jobListingDataPipeline (v : JsValue) : option (list JobListing) :=
  rowSplitTransformer v ≫= jobListingTransformer.

Definition parseJobListings (apiData : JsValue) : list JobListing :=
  match jobListingDataPipeline apiData with
  | Some data => data
  | None => []
  end.

End Pipeline.
End JobListings.

(** ** The React hooks: [getJobListings] *)

Module Hooks.
Section Hooks.
Context `{StringFormats}.

(** [const r = await getSpreadsheetData(id); if (!r.ok) throw r.error;
    return parseJobListings(r.data);] *)
Definition getJobListings (fetched : Outcome Response) : Outcome (list JobListing) :=
  match SheetsApi.getSpreadsheetData fetched with
  | Throws e => Throws e
  | Returns (ResultErr error) => Throws (ExnError error)
  | Returns (ResultOk data) =>
      Returns (JobListings.parseJobListings (SheetsApi.responseToJs data))
  end.

End Hooks.
End Hooks.

(** ** Inputs whose properties are accessors *)

(** A parameter typed [unknown] also takes objects whose properties are
    accessors: reading one runs its getter, which returns a value or
    throws.  [safeParse] reports what a schema refuses and catches
    nothing: what a getter throws while the object schema reads its keys
    leaves [safeParse], and [parseJobListings] with it. *)
Module Accessors.

(** A value of plain data, or an object whose [majorDimension] and
    [values] are accessor properties, given by what reading them settles
    to; its other properties are data properties. *)
Inductive Input : Type :=
| Plain (v : JsValue)
| Object (majorDimension values : Outcome JsValue)
         (others : list (string * JsValue)).


Section Accessors.
Context `{StringFormats}.

(** [parseJobListings] on such an input.  The object schema of
    [initialResponseProcessor] reads the keys of its shape in their
    order, [majorDimension] and then [values], whatever it makes of the
    first; the pipeline then works on the values read. *)
Definition parseJobListings (apiData : Input) : Outcome (list JobListing) :=
  match apiData with
  | Plain v => Returns (JobListingJson.parseJobListings v)
  | Object majorDimension values others =>
      match majorDimension with
      | Throws e => Throws e
      | Returns dimension =>
          match values with
          | Throws e => Throws e
          | Returns table =>
              Returns (JobListingJson.parseJobListings
                         (JObj (("majorDimension", dimension)
                                 :: ("values", table) :: others)))
          end
      end
  end.

End Accessors.
End Accessors.


(** ** What the validators of [sheetsApi] accept *)

(** A raw value is a non-empty array of scalars. *)
Definition nonEmptyScalarRowJs (v : JsValue) : bool := scalarRowJs 1 v.

(** The raw shape [apiResponseValidator] lets through. *)
Definition responseAccepted (v : JsValue) : bool :=
  match v with
  | JObj props =>
      match getProp "range" props, getProp "majorDimension" props,
            getProp "values" props with
      | JStr _, JStr dimension, JArr table =>
          bool_decide (dimension = "ROWS")
          && bool_decide (1 ≤ length table)%nat
          && forallb nonEmptyScalarRowJs table
      | _, _, _ => false
      end
  | _ => false
  end.

(** [typeof v.range === "string"] on an object, [false] on anything
    else. *)
Definition hasStringRange (v : JsValue) : bool :=
  match v with
  | JObj props => match getProp "range" props with JStr _ => true | _ => false end
  | _ => false
  end.

(** ** Relating the variants *)

(** A listing with only the entry of [extraFields] that the older
    pre-split variant stores: the one under the key ["extraFields"]. *)
Definition keepExtraFieldsColumn (l : JobListing) : JobListing :=
  mkJobListing (company l) (jobTitle l) (appStatus l) (dateSubmitted l)
    (dateLastModified l)
    (filter (λ entry, entry.1 = "extraFields") (extraFields l))
    (location l) (notes l) (url l).

(** The pre-split input [{ fields: header, rows: dataRows }]. *)
Definition preSplit (header : JsValue) (dataRows : list JsValue) : JsValue :=
  JObj [("fields", header); ("rows", JArr dataRows)].

(** ** What a listing holds, by property name *)

(** The eight required properties of a listing, by name. *)
Definition requiredProperties (l : JobListing) : gmap string string :=
  list_to_map
    [("company", company l); ("jobTitle", jobTitle l); ("location", location l);
     ("appStatus", appStatus l); ("url", url l); ("notes", notes l);
     ("dateSubmitted", dateSubmitted l);
     ("dateLastModified", dateLastModified l)].

Section FieldConstraints.
Context {formats : StringFormats}.

(** The constraint [jobListingValidator] puts on the text of a required
    field. *)
Definition fieldAccepts (rf s : string) : bool :=
  if bool_decide (rf ∈ ["company"; "jobTitle"; "appStatus"])
  then bool_decide (1 ≤ String.length s)%nat
  else if bool_decide (rf ∈ ["dateSubmitted"; "dateLastModified"])
  then isDatetime s
  else if bool_decide (rf = "url")
  then bool_decide (s = "") || isUrl s
  else true.

End FieldConstraints.

(** The same columns in another order: the row under its header, as a
    list of (column name, cell) pairs, is the same up to order. *)
Definition sameColumns (names : list string) (row : list Cell)
    (names' : list string) (row' : list Cell) : Prop :=
  length row = length names ∧ length row' = length names'
  ∧ zip names' row' ≡ₚ zip names row.

(** ** [debounce]: delaying a callback until the calls settle *)

Module Debounce.

(** [Number.isInteger]: a finite number with no fractional part.  A
    finite double is a mantissa times a power of two. *)
Definition isInteger (n : float) : bool :=
  match Prim2SF n with
  | S754_zero _ => true
  | S754_finite _ mantissa exponent =>
      bool_decide (0 ≤ exponent)%Z
      || bool_decide ((Z.pos mantissa `mod` 2 ^ (- exponent))%Z = 0%Z)
  | _ => false
  end.

(** What [debounce] hands back: the callback itself, or the closure
    [callDebounced]. *)
Inductive Debounced : Type :=
| TheCallback
| CallDebounced.

(** [new Error(`${debounceTimeMs} is not a non-negative integer`)] *)
Inductive DebounceError : Type :=
| NotANonNegativeInteger (debounceTimeMs : float).

Definition debounce (debounceTimeMs : float) : DebounceError + Debounced :=
  if negb (isInteger debounceTimeMs) || PrimFloat.ltb debounceTimeMs 0
  then inl (NotANonNegativeInteger debounceTimeMs)
  else if PrimFloat.eqb debounceTimeMs 0
  then inr TheCallback
  else inr CallDebounced.

Section CallDebounced.
Context {Args : Type}.

(** The state [callDebounced] works on: its captured variable
    [debounceId], and of the window the timeouts it has set that are
    still pending, each with the arguments its closure captured, and the
    next timeout id.  [invoked] records the calls of [callback], latest
    first. *)
Record State : Type := mkState {
  debounceId : option nat;
  timers : gmap nat Args;
  nextId : nat;
  invoked : list Args;
}.

(** The state when [debounce] returns: nothing pending; [firstId] is
    the id the window hands out next. *)
Definition initial (firstId : nat) : State := mkState None ∅ firstId [].

(** [window.clearTimeout(id)] *)
Definition clearTimeout (id : nat) (σ : State) : State :=
  mkState (debounceId σ) (delete id (timers σ)) (nextId σ) (invoked σ).

(** One call [callDebounced(...args)]. *)
Definition callDebounced (args : Args) (σ : State) : State :=
  let σ := match debounceId σ with
           | Some id => clearTimeout id σ
           | None => σ
           end in
  mkState (Some (nextId σ)) (<[nextId σ := args]> (timers σ)) (S (nextId σ))
    (invoked σ).

(** What a run of [callback] does that [callDebounced] can see: the
    calls it makes to the debounced function itself, and whether it
    returns or throws. *)
Record CallbackRun : Type := mkRun {
  reentrant : list Args;
  returns : bool;
}.

(** The timeout [id] comes due: [callback(...args); debounceId = null;].
    The assignment is skipped when the callback throws.  Nothing runs for
    an id that is not pending. *)
Definition fire (id : nat) (run : CallbackRun) (σ : State) : State :=
  match timers σ !! id with
  | None => σ
  | Some args =>
      let σ := mkState (debounceId σ) (delete id (timers σ)) (nextId σ)
                 (args :: invoked σ) in
      let σ := foldl (λ σ args, callDebounced args σ) σ (reentrant run) in
      if returns run
      then mkState None (timers σ) (nextId σ) (invoked σ)
      else σ
  end.

(** What happens to the debounced function: it is called, or one of the
    timeouts comes due. *)
Inductive Event : Type :=
| Call (args : Args)
| Fire (id : nat) (run : CallbackRun).

Definition step (σ : State) (e : Event) : State :=
  match e with
  | Call args => callDebounced args σ
  | Fire id run => fire id run σ
  end.

Definition runEvents (firstId : nat) (events : list Event) : State :=
  foldl step (initial firstId) events.

(** The arguments of the calls in a history, latest first. *)
Definition calls (events : list Event) : list Args :=
  reverse (omap (λ e, match e with Call args => Some args | Fire _ _ => None end)
             events).

(** The callback never calls the debounced function itself. *)
Definition quiet (e : Event) : Prop :=
  match e with
  | Call _ => True
  | Fire _ run => reentrant run = []
  end.

End CallDebounced.
Arguments State : clear implicits.
Arguments CallbackRun : clear implicits.
Arguments Event : clear implicits.
End Debounce.

(** * Properties *)

(** ** Lemmas on the zod combinators *)

Lemma parseArray_Some {A} (s : Zod.ZodArray A) v xs :
  Zod.parseArray s v = Some xs ↔
  ∃ items, v = JArr items
    ∧ Forall2 (λ item x, Zod.element s item = Some x) items xs
    ∧ match Zod.minLength s with Some n => (n ≤ length xs)%nat | None => True end.
Proof.
  unfold Zod.parseArray. split.
  - destruct v; try discriminate. intros Hb.
    destruct (mapM (Zod.element s) items) as [ys|] eqn:Hm; simpl in Hb; [|discriminate].
    apply mapM_Some in Hm. exists items.
    destruct (Zod.minLength s) as [n|].
    + destruct (decide (n ≤ length ys)%nat); [|discriminate].
      by injection Hb as <-.
    + by injection Hb as <-.
  - intros (items & -> & Hm & Hlen). apply mapM_Some in Hm. rewrite Hm. simpl.
    destruct (Zod.minLength s) as [n|]; [|done].
    by rewrite decide_True.
Qed.

Lemma cellValidator_Some v c :
  jsonSheetCellValidator v = Some c ↔ v = cellToJs c ∧ validCell c = true.
Proof.
  unfold jsonSheetCellValidator, Zod.union, Zod.string, Zod.number, Zod.boolean.
  split.
  - destruct v; simpl; try discriminate.
    + intros [= <-]. done.
    + destruct (PrimFloat.is_nan n) eqn:Hn; simpl; [discriminate|].
      intros [= <-]. simpl. by rewrite Hn.
    + intros [= <-]. done.
  - intros [-> Hc]. destruct c; simpl in *; try done.
    destruct (PrimFloat.is_nan n); simpl in *; done.
Qed.

Lemma cellValidator_is_Some v :
  is_Some (jsonSheetCellValidator v) ↔ scalarJs v = true.
Proof.
  split.
  - intros [c [-> Hc]%cellValidator_Some]. by destruct c.
  - intros Hv. destruct v; simpl in Hv; try discriminate.
    + exists (CBool b). by apply cellValidator_Some.
    + exists (CNum n). by apply cellValidator_Some.
    + exists (CStr s). by apply cellValidator_Some.
Qed.

Lemma Forall2_cellToJs items row :
  Forall2 (λ item c, jsonSheetCellValidator item = Some c) items row ↔
  items = cellToJs <$> row ∧ Forall (λ c, validCell c = true) row.
Proof.
  split.
  - induction 1 as [|item c items row [-> Hc]%cellValidator_Some _ [-> IH]];
      simpl; auto.
  - intros [-> Hrow]. induction Hrow; simpl; constructor; auto.
    by apply cellValidator_Some.
Qed.

Lemma rowValidator_Some v row :
  Zod.parseArray jsonSheetRowValidator v = Some row ↔
  v = rowToJs row ∧ rowAccepted row.
Proof.
  rewrite parseArray_Some. simpl. unfold rowAccepted, rowToJs. split.
  - intros (items & -> & [-> Hrow]%Forall2_cellToJs & Hlen). auto.
  - intros (-> & Hlen & Hrow). eexists. split; [done|]. split; [|done].
    by apply Forall2_cellToJs.
Qed.

Lemma rowValidator_is_Some v :
  is_Some (Zod.parseArray jsonSheetRowValidator v) ↔
  scalarRowJs (length requiredFields) v = true.
Proof.
  split.
  - intros [row (-> & Hlen & Hrow)%rowValidator_Some]. simpl.
    rewrite length_fmap. rewrite bool_decide_true by done. simpl.
    apply forallb_forall. intros x [c [-> Hc]]%list_elem_of_In%list_elem_of_fmap.
    rewrite Forall_forall in Hrow. specialize (Hrow c Hc). by destruct c.
  - intros Hv. destruct v; simpl in Hv; try discriminate.
    apply andb_true_iff in Hv as [Hlen Hcells].
    apply bool_decide_eq_true in Hlen.
    assert (is_Some (mapM jsonSheetCellValidator items)) as [row Hrow].
    { apply mapM_is_Some. apply Forall_forall. intros x Hx. simpl.
      apply cellValidator_is_Some.
      rewrite forallb_forall in Hcells. by apply Hcells, list_elem_of_In. }
    exists row. apply parseArray_Some. exists items. split; [done|].
    split; [by apply mapM_Some|]. simpl.
    apply length_mapM in Hrow. simpl in *. lia.
Qed.

Lemma Forall2_rowToJs items table :
  Forall2 (λ item row, Zod.parseArray jsonSheetRowValidator item = Some row)
    items table ↔
  items = rowToJs <$> table ∧ Forall rowAccepted table.
Proof.
  split.
  - induction 1 as [|item row items table [-> Hrow]%rowValidator_Some _ [-> IH]];
      simpl; auto.
  - intros [-> Htable]. induction Htable; simpl; constructor; auto.
    by apply rowValidator_Some.
Qed.

Lemma Forall2_string items names :
  Forall2 (λ item name, Zod.string item = Some name) items names ↔
  items = JStr <$> names.
Proof.
  split.
  - induction 1 as [|item name items names Hitem _ ->]; [done|].
    destruct item; simplify_eq/=. done.
  - intros ->. induction names; simpl; constructor; auto.
Qed.

(** ** Lemmas on the header checks *)

Lemma size_list_to_set_le (l : list string) :
  (size (list_to_set l : gset string) ≤ length l)%nat.
Proof.
  induction l as [|x l IH]; [done|].
  - rewrite list_to_set_cons, size_union_alt, size_singleton. simpl.
    assert (list_to_set l ∖ {[x]} ⊆ (list_to_set l : gset string)) as Hsub
      by apply subseteq_difference_l, reflexivity.
    apply subseteq_size in Hsub. lia.
Qed.

Lemma noDuplicateFields_NoDup (apiFields : list string) :
  noDuplicateFields apiFields = true ↔ NoDup apiFields.
Proof.
  unfold noDuplicateFields. rewrite bool_decide_eq_true. split.
  - induction apiFields as [|x l IH]; [constructor|].
    rewrite list_to_set_cons. simpl. intros Hsize.
    assert (x ∉ l) as Hx.
    { intros Hin.
      assert ({[x]} ∪ list_to_set l = (list_to_set l : gset string)) as Heq.
      { apply subseteq_union_1_L, singleton_subseteq_l, elem_of_list_to_set, Hin. }
      rewrite Heq in Hsize. pose proof (size_list_to_set_le l). lia. }
    constructor; [done|]. apply IH.
    rewrite size_union, size_singleton in Hsize; [lia|].
    apply disjoint_singleton_l. by rewrite elem_of_list_to_set.
  - intros Hnd. symmetry. by apply size_list_to_set.
Qed.

Lemma allRequiredPresent_spec (apiFields : list string) :
  allRequiredPresent apiFields = true ↔ ∀ rf, rf ∈ requiredFields → rf ∈ apiFields.
Proof.
  unfold allRequiredPresent. rewrite forallb_forall. split.
  - intros Hall rf Hrf. apply list_elem_of_In in Hrf.
    by apply Hall, bool_decide_eq_true in Hrf.
  - intros Hall rf Hrf. apply bool_decide_eq_true, Hall. by apply list_elem_of_In.
Qed.

Lemma fieldsValidator_Some v names :
  Zod.refine allRequiredPresent
    (Zod.refine noDuplicateFields
       (Zod.parseArray (Zod.min (length requiredFields) (Zod.array Zod.string))))
    v = Some names ↔
  v = headerJs names ∧ headerAccepted names.
Proof.
  unfold Zod.refine, headerAccepted, headerJs. split.
  - intros Hv.
    destruct (Zod.parseArray _ v) as [xs|] eqn:Hparse; simpl in Hv; [|discriminate].
    destruct (noDuplicateFields xs) eqn:Hnd; simpl in Hv; [|discriminate].
    destruct (allRequiredPresent xs) eqn:Hall; [|discriminate].
    injection Hv as ->.
    apply parseArray_Some in Hparse as (items & -> & ->%Forall2_string & Hlen).
    simpl in Hlen. split; [done|]. split; [done|].
    split; [by apply noDuplicateFields_NoDup|by apply allRequiredPresent_spec].
  - intros (-> & Hlen & Hnd & Hall).
    assert (Zod.parseArray (Zod.min (length requiredFields) (Zod.array Zod.string))
              (JArr (JStr <$> names)) = Some names) as ->.
    { apply parseArray_Some. eexists. split; [done|]. split; [|done].
      by apply Forall2_string. }
    apply noDuplicateFields_NoDup in Hnd. apply allRequiredPresent_spec in Hall.
    apply bind_Some. exists names. split; [|by rewrite Hall].
    apply bind_Some. exists names. split; [done|]. by rewrite Hnd.
Qed.

Lemma rowsValidator_Some v table :
  Zod.parseArray (Zod.array (Zod.parseArray jsonSheetRowValidator)) v = Some table ↔
  v = JArr (rowToJs <$> table) ∧ Forall rowAccepted table.
Proof.
  rewrite parseArray_Some. simpl. split.
  - intros (items & -> & [-> Htable]%Forall2_rowToJs & _). done.
  - intros [-> Htable]. eexists. split; [done|]. split; [|done].
    by apply Forall2_rowToJs.
Qed.

(** [apiDataValidator] accepts exactly the objects whose [fields] is an
    accepted header and whose [rows] are accepted rows. *)
Lemma apiDataValidator_Some v apiData :
  apiDataValidator v = Some apiData ↔
  ∃ props, v = JObj props
    ∧ getProp "fields" props = headerJs (fields apiData)
    ∧ headerAccepted (fields apiData)
    ∧ getProp "rows" props = JArr (rowToJs <$> rows apiData)
    ∧ Forall rowAccepted (rows apiData).
Proof.
  unfold apiDataValidator. split.
  - destruct v; try discriminate. intros Hv.
    destruct (Zod.refine _ _ (getProp "fields" props)) as [fs|] eqn:Hfs;
      simpl in Hv; [|discriminate].
    destruct (Zod.parseArray _ (getProp "rows" props)) as [rs|] eqn:Hrs;
      simpl in Hv; [|discriminate].
    injection Hv as <-. simpl.
    apply fieldsValidator_Some in Hfs as [? ?].
    apply rowsValidator_Some in Hrs as [? ?]. by exists props.
  - intros (props & -> & Hfs & Hacc & Hrs & Hrows).
    pose proof (proj2 (fieldsValidator_Some _ _) (conj Hfs Hacc)) as ->.
    pose proof (proj2 (rowsValidator_Some _ _) (conj Hrs Hrows)) as ->.
    simpl. by destruct apiData.
Qed.

(** ** Lemmas on the two stages of the pipeline *)

#[local] Instance cellToJs_inj : Inj (=) (=) cellToJs.
Proof. intros [] [] ?; simplify_eq/=; done. Qed.

#[local] Instance rowToJs_inj : Inj (=) (=) rowToJs.
Proof. intros r1 r2 [= Heq]. by apply (inj (fmap cellToJs)) in Heq. Qed.

Lemma rowToJs_header (hdr : list Cell) (names : list string) :
  rowToJs hdr = headerJs names ↔ hdr = CStr <$> names.
Proof.
  unfold rowToJs, headerJs. split.
  - intros [= Heq]. apply (inj (fmap cellToJs)).
    by rewrite <- list_fmap_compose.
  - intros ->. by rewrite <- list_fmap_compose.
Qed.

Lemma literal_ROWS v :
  is_Some (Zod.literal "ROWS" v) ↔ v = JStr "ROWS".
Proof.
  unfold Zod.literal. split.
  - intros [x Hx]. destruct v; try discriminate.
    destruct (decide (s = "ROWS")) as [->|]; [done|discriminate].
  - intros ->. by rewrite decide_True.
Qed.

(** [initialResponseProcessor] accepts exactly the objects tagged
    ["ROWS"] whose [values] hold an accepted first row and at least one
    more accepted row; the output is the split of those rows. *)
Lemma initialResponseProcessor_Some v d :
  JobListingJson.initialResponseProcessor v = Some d ↔
  ∃ props hdr table, v = JObj props
    ∧ getProp "majorDimension" props = JStr "ROWS"
    ∧ getProp "values" props = JArr (rowToJs <$> hdr :: table)
    ∧ Forall rowAccepted (hdr :: table)
    ∧ table ≠ []
    ∧ d = JobListingJson.splitRows (hdr :: table).
Proof.
  unfold JobListingJson.initialResponseProcessor. split.
  - destruct v; try discriminate. intros Hv.
    destruct (Zod.literal "ROWS" _) eqn:Hlit; simpl in Hv; [|discriminate].
    destruct (Zod.parseArray _ (getProp "values" props)) as [values|] eqn:Hvalues;
      simpl in Hv; [|discriminate].
    injection Hv as <-.
    apply mk_is_Some, literal_ROWS in Hlit.
    apply parseArray_Some in Hvalues
      as (items & Hitems & [-> Hacc]%Forall2_rowToJs & Hlen).
    simpl in Hlen. destruct values as [|hdr [|row table]]; simpl in Hlen; try lia.
    exists props, hdr, (row :: table). done.
  - intros (props & hdr & table & -> & Hdim & Hvalues & Hacc & Hne & ->).
    rewrite Hdim, Hvalues.
    assert (Zod.parseArray
              (Zod.min 2 (Zod.nonempty
                 (Zod.array (Zod.parseArray jsonSheetRowValidator))))
              (JArr (rowToJs <$> hdr :: table)) = Some (hdr :: table)) as ->; [|done].
    apply parseArray_Some. eexists. split; [done|].
    split; [by apply Forall2_rowToJs|].
    destruct table; [done|]. simpl. lia.
Qed.

(** The second stage on the output of the first. *)
Lemma apiDataValidator_splitRows hdr table apiData :
  apiDataValidator (JobListingJson.splitRows (hdr :: table)) = Some apiData ↔
  hdr = CStr <$> fields apiData
  ∧ headerAccepted (fields apiData)
  ∧ rows apiData = table
  ∧ Forall rowAccepted table.
Proof.
  rewrite apiDataValidator_Some. simpl. split.
  - intros (props & [= <-] & Hfs & Hacc & Hrs & Hrows). simpl in Hfs, Hrs.
    apply rowToJs_header in Hfs. injection Hrs as Hrs.
    apply (inj (fmap rowToJs)) in Hrs. by subst.
  - intros (-> & Hacc & <- & Hrows). eexists. split; [done|]. simpl.
    split; [by apply rowToJs_header|]. done.
Qed.

Section PipelineLemmas.
Context {formats : StringFormats}.

Lemma validRecords_omap (names : list string) (table : list (list Cell)) :
  validRecords (rowToRecord names <$> table) = omap (rowListing names) table.
Proof.
  unfold validRecords, rowListing.
  induction table as [|row table IH]; [done|].
  rewrite fmap_cons, bind_cons, IH. simpl.
  by destruct (jobListingValidator (rowToRecord names row)).
Qed.

(** The pipeline succeeds exactly on an accepted envelope whose first row
    is an accepted header of field names, and then returns the listings
    of the data rows that yield one, in row order. *)
Lemma jobListingDataPipeline_Some v out :
  JobListingJson.jobListingDataPipeline v = Some out ↔
  ∃ props names table, v = JObj props
    ∧ getProp "majorDimension" props = JStr "ROWS"
    ∧ getProp "values" props = JArr (headerJs names :: (rowToJs <$> table))
    ∧ headerAccepted names
    ∧ Forall rowAccepted table
    ∧ table ≠ []
    ∧ out = omap (rowListing names) table.
Proof.
  unfold JobListingJson.jobListingDataPipeline, JobListingJson.recordsTransformer.
  split.
  - intros Hv. apply bind_Some in Hv as (d & Hd & Hv).
    apply bind_Some in Hv as (apiData & Hapi & [= <-]).
    apply initialResponseProcessor_Some in Hd
      as (props & hdr & table & -> & Hdim & Hvalues & Hacc & Hne & ->).
    apply apiDataValidator_splitRows in Hapi as (-> & Hhdr & Hrows & Htable).
    exists props, (fields apiData), table. rewrite Hrows.
    rewrite fmap_cons in Hvalues.
    rewrite (proj2 (rowToJs_header _ _) eq_refl) in Hvalues.
    rewrite validRecords_omap. done.
  - intros (props & names & table & -> & Hdim & Hvalues & Hhdr & Htable & Hne & ->).
    apply bind_Some. exists (JobListingJson.splitRows ((CStr <$> names) :: table)).
    split.
    + apply initialResponseProcessor_Some. exists props, (CStr <$> names), table.
      rewrite fmap_cons, (proj2 (rowToJs_header _ _) eq_refl).
      split_and!; try done. constructor; [|done]. split.
      * rewrite length_fmap. apply Hhdr.
      * apply Forall_fmap, Forall_true. done.
    + apply bind_Some. exists (mkApiData names table). split.
      * by apply apiDataValidator_splitRows.
      * simpl. by rewrite validRecords_omap.
Qed.

End PipelineLemmas.

(** ** Lemmas on the record builder *)

Lemma keyAt_lookup names index :
  keyAt names index = default "" (names !! index).
Proof. unfold keyAt, fieldIndices. by rewrite lookup_map_seq_0. Qed.

Lemma keyAt_Some names index name :
  names !! index = Some name → keyAt names index = name.
Proof. intros Hname. by rewrite keyAt_lookup, Hname. Qed.

Lemma keyAt_overflow names index :
  (length names ≤ index)%nat → keyAt names index = "".
Proof. intros Hlen. by rewrite keyAt_lookup, lookup_ge_None_2. Qed.

Lemma forEntries_app {R} (body : nat → Cell → R → R) index row1 row2 record :
  forEntries body index (row1 ++ row2) record
  = forEntries body (index + length row1) row2 (forEntries body index row1 record).
Proof.
  revert index record. induction row1 as [|c row1 IH]; intros index record; simpl.
  - by rewrite Nat.add_0_r.
  - rewrite IH. f_equal. lia.
Qed.

Lemma assignCell_other names index cellValue record key :
  keyAt names index ≠ key →
  required (assignCell (fieldIndices names) index cellValue record) !! key
    = required record !! key
  ∧ partialExtraFields (assignCell (fieldIndices names) index cellValue record) !! key
    = partialExtraFields record !! key.
Proof.
  unfold keyAt, assignCell, setRequired, setExtraField. intros Hkey.
  destruct (isRequiredField _).
  - destruct cellValue; simpl; try done. by rewrite lookup_insert_ne.
  - destruct (decide (_ = "__proto__")); simpl; [done|].
    by rewrite lookup_insert_ne.
Qed.

(** Columns that resolve to other keys leave a key as it was. *)
Lemma forEntries_other names key row index record :
  (∀ j, (index ≤ j < index + length row)%nat → keyAt names j ≠ key) →
  required (forEntries (assignCell (fieldIndices names)) index row record) !! key
    = required record !! key
  ∧ partialExtraFields
      (forEntries (assignCell (fieldIndices names)) index row record) !! key
    = partialExtraFields record !! key.
Proof.
  revert index record.
  induction row as [|c row IH]; intros index record Hkeys; simpl; [done|].
  destruct (IH (S index) (assignCell (fieldIndices names) index c record))
    as [-> ->].
  { intros j Hj. apply Hkeys. simpl. lia. }
  apply assignCell_other, Hkeys. simpl. lia.
Qed.

(** In a header without duplicates, no later column resolves to the name
    of column [c], unless the name is empty and the row overflows the
    header. *)
Lemma keyAt_later names c name j :
  NoDup names → names !! c = Some name → (c < j)%nat →
  name ≠ "" ∨ (j < length names)%nat →
  keyAt names j ≠ name.
Proof.
  intros Hnd Hc Hj Hside Heq. rewrite keyAt_lookup in Heq.
  destruct (names !! j) as [name'|] eqn:Hj'; simpl in Heq.
  - subst name'. pose proof (NoDup_lookup _ _ _ _ Hnd Hc Hj'). lia.
  - apply lookup_ge_None in Hj'. destruct Hside as [Hne|Hlt]; [by subst|lia].
Qed.

Lemma keyAt_earlier names c name j :
  NoDup names → names !! c = Some name → (j < c)%nat → keyAt names j ≠ name.
Proof.
  intros Hnd Hc Hj Heq. rewrite keyAt_lookup in Heq.
  pose proof (lookup_lt_Some _ _ _ Hc).
  destruct (lookup_lt_is_Some_2 names j ltac:(lia)) as [name' Hj'].
  rewrite Hj' in Heq. simpl in Heq. subst name'.
  pose proof (NoDup_lookup _ _ _ _ Hnd Hc Hj'). lia.
Qed.

Lemma isRequiredField_empty : isRequiredField "" = false.
Proof. reflexivity. Qed.

(** A text cell in a required column is stored under the column name. *)
Lemma rowToRecord_required names row c name s :
  NoDup names → names !! c = Some name → isRequiredField name = true →
  row !! c = Some (CStr s) →
  required (rowToRecord names row) !! name = Some s.
Proof.
  intros Hnd Hname Hreq Hcell. unfold rowToRecord.
  rewrite <- (take_drop_middle _ _ _ Hcell), forEntries_app. simpl.
  pose proof (lookup_lt_Some _ _ _ Hcell) as Hlt.
  rewrite length_take, Nat.min_l by lia.
  destruct (forEntries_other names name (drop (S c) row) (S c)
              (assignCell (fieldIndices names) c (CStr s)
                 (forEntries (assignCell (fieldIndices names)) 0 (take c row)
                    emptyRecord))) as [-> _].
  { intros j Hj. apply (keyAt_later names c); [done|done|lia|].
    left. intros ->. by rewrite isRequiredField_empty in Hreq. }
  unfold assignCell. fold (keyAt names c). rewrite (keyAt_Some _ _ _ Hname), Hreq.
  simpl. by rewrite lookup_insert_eq.
Qed.

(** A cell in any other column is stored in [extraFields] under the
    column name; the empty name is the one later cells can take over,
    when the row is longer than the header. *)
Lemma rowToRecord_extra names row c name cell :
  NoDup names → names !! c = Some name → isRequiredField name = false →
  name ≠ "__proto__" → row !! c = Some cell →
  name ≠ "" ∨ (length row ≤ length names)%nat →
  partialExtraFields (rowToRecord names row) !! name = Some cell.
Proof.
  intros Hnd Hname Hreq Hproto Hcell Hside. unfold rowToRecord.
  rewrite <- (take_drop_middle _ _ _ Hcell), forEntries_app. simpl.
  pose proof (lookup_lt_Some _ _ _ Hcell) as Hlt.
  rewrite length_take, Nat.min_l by lia.
  destruct (forEntries_other names name (drop (S c) row) (S c)
              (assignCell (fieldIndices names) c cell
                 (forEntries (assignCell (fieldIndices names)) 0 (take c row)
                    emptyRecord))) as [_ ->].
  { intros j Hj. apply (keyAt_later names c); [done|done|lia|].
    destruct Hside as [?|Hlen]; [by left|right].
    rewrite length_drop in Hj. lia. }
  unfold assignCell. fold (keyAt names c). rewrite (keyAt_Some _ _ _ Hname), Hreq.
  unfold setExtraField. rewrite decide_False by done.
  simpl. by rewrite lookup_insert_eq.
Qed.

(** A key that no visited column resolves to stays unset. *)
Lemma rowToRecord_unset names row key :
  (∀ j, (j < length row)%nat → keyAt names j ≠ key) →
  required (rowToRecord names row) !! key = None
  ∧ partialExtraFields (rowToRecord names row) !! key = None.
Proof.
  intros Hkeys. unfold rowToRecord.
  destruct (forEntries_other names key row 0 emptyRecord) as [-> ->]; [|done].
  intros j Hj. apply Hkeys. lia.
Qed.

(** ** Lemmas on the record validator *)

Section ValidatorLemmas.
Context {formats : StringFormats}.

Lemma stringMin_Some n field s :
  Zod.stringMin n field = Some s ↔ field = Some s ∧ (n ≤ String.length s)%nat.
Proof.
  unfold Zod.stringMin. split.
  - intros (s' & -> & Hs)%bind_Some.
    destruct (decide (n ≤ String.length s')%nat); by simplify_eq.
  - intros [-> Hlen]. simpl. by rewrite decide_True.
Qed.

Lemma datetimeString_Some field s :
  datetimeString field = Some s ↔ field = Some s ∧ isDatetime s = true.
Proof.
  unfold datetimeString. split.
  - intros (s' & -> & Hs)%bind_Some.
    destruct (isDatetime s') eqn:?; by simplify_eq.
  - intros [-> Hs]. simpl. by rewrite Hs.
Qed.

Lemma urlOrEmpty_Some field s :
  urlOrEmpty field = Some s ↔ field = Some s ∧ (s = "" ∨ isUrl s = true).
Proof.
  unfold urlOrEmpty. split.
  - intros (s' & -> & Hs)%bind_Some.
    destruct (decide (s' = "")) as [->|]; [simplify_eq; auto|].
    destruct (isUrl s') eqn:?; simplify_eq; auto.
  - intros [-> Hs]. simpl.
    destruct (decide (s = "")) as [->|]; [done|].
    destruct Hs as [?|Hs]; [done|]. by rewrite Hs.
Qed.

Lemma validCell_is_Some c :
  is_Some (jsonSheetCellValidator (cellToJs c)) ↔ validCell c = true.
Proof. rewrite cellValidator_is_Some. by destruct c. Qed.

Lemma recordOfCells_Some m m' :
  recordOfCells m = Some m' ↔ m' = m ∧ map_Forall (λ _ c, validCell c = true) m.
Proof.
  unfold recordOfCells. split.
  - destruct (decide _) as [Hm|]; [|discriminate]. intros [= <-]. split; [done|].
    intros k c Hk. by apply validCell_is_Some, (Hm k).
  - intros [-> Hm]. rewrite decide_True; [done|].
    intros k c Hk. by apply validCell_is_Some, (Hm k).
Qed.

(** A partial record validates exactly when every required property is
    set and meets its constraint and every extra cell is still a cell. *)
Lemma jobListingValidator_Some record l :
  jobListingValidator record = Some l ↔
  required record !! "company" = Some (company l)
  ∧ required record !! "jobTitle" = Some (jobTitle l)
  ∧ required record !! "location" = Some (location l)
  ∧ required record !! "appStatus" = Some (appStatus l)
  ∧ required record !! "url" = Some (url l)
  ∧ required record !! "notes" = Some (notes l)
  ∧ required record !! "dateSubmitted" = Some (dateSubmitted l)
  ∧ required record !! "dateLastModified" = Some (dateLastModified l)
  ∧ extraFields l = partialExtraFields record
  ∧ wfJobListing l.
Proof.
  unfold jobListingValidator, wfJobListing. split.
  - intros Hv.
    apply bind_Some in Hv as (c & [? ?]%stringMin_Some & Hv).
    apply bind_Some in Hv as (j & [? ?]%stringMin_Some & Hv).
    apply bind_Some in Hv as (a & [? ?]%stringMin_Some & Hv).
    apply bind_Some in Hv as (ds & [? ?]%datetimeString_Some & Hv).
    apply bind_Some in Hv as (dm & [? ?]%datetimeString_Some & Hv).
    apply bind_Some in Hv as (ef & [? ?]%recordOfCells_Some & Hv).
    apply bind_Some in Hv as (lo & ? & Hv).
    apply bind_Some in Hv as (no & ? & Hv).
    apply bind_Some in Hv as (u & [? ?]%urlOrEmpty_Some & [= <-]).
    simpl. subst ef. split_and!; done.
  - destruct l as [c j a ds dm ef lo no u]. simpl.
    intros (Hc & Hj & Hlo & Ha & Hu & Hno & Hds & Hdm & -> & ? & ? & ? & ? & ? & ? & ?).
    rewrite Hc, Hj, Hlo, Ha, Hu, Hno, Hds, Hdm.
    rewrite (proj2 (stringMin_Some 1 (Some c) c)) by done.
    rewrite (proj2 (stringMin_Some 1 (Some j) j)) by done.
    rewrite (proj2 (stringMin_Some 1 (Some a) a)) by done.
    rewrite (proj2 (datetimeString_Some (Some ds) ds)) by done.
    rewrite (proj2 (datetimeString_Some (Some dm) dm)) by done.
    rewrite (proj2 (recordOfCells_Some _ _)) by done.
    rewrite (proj2 (urlOrEmpty_Some (Some u) u)) by done.
    done.
Qed.

Lemma rowListing_wf names row l : rowListing names row = Some l → wfJobListing l.
Proof. unfold rowListing. rewrite jobListingValidator_Some. intros H. apply H. Qed.

(** The result is the pipeline's data when it parses and the empty array
    otherwise. *)
Lemma parseJobListings_cases v :
  (JobListingJson.jobListingDataPipeline v = None
   ∧ JobListingJson.parseJobListings v = [])
  ∨ ∃ props names table, v = JObj props
      ∧ getProp "majorDimension" props = JStr "ROWS"
      ∧ getProp "values" props = JArr (headerJs names :: (rowToJs <$> table))
      ∧ headerAccepted names
      ∧ Forall rowAccepted table
      ∧ table ≠ []
      ∧ JobListingJson.parseJobListings v = omap (rowListing names) table.
Proof.
  unfold JobListingJson.parseJobListings.
  destruct (JobListingJson.jobListingDataPipeline v) as [out|] eqn:Hv; [|by left].
  right. apply jobListingDataPipeline_Some in Hv
    as (props & names & table & ? & ? & ? & ? & ? & ? & ->).
  by exists props, names, table.
Qed.

End ValidatorLemmas.

Lemma assignCell_extra_keys indices index cellValue record :
  (∀ k, is_Some (partialExtraFields record !! k) → extraKeyOk k) →
  ∀ k, is_Some (partialExtraFields (assignCell indices index cellValue record) !! k)
       → extraKeyOk k.
Proof.
  intros Hrec k. unfold assignCell.
  destruct (isRequiredField (default "" (indices !! index))) eqn:Hreq.
  - destruct cellValue; simpl; apply Hrec.
  - unfold setExtraField.
    destruct (decide (_ = "__proto__")) as [|Hproto]; [apply Hrec|]. simpl.
    destruct (decide (default "" (indices !! index) = k)) as [<-|Hne].
    + done.
    + rewrite lookup_insert_ne by done. apply Hrec.
Qed.

Lemma forEntries_extra_keys indices row index record :
  (∀ k, is_Some (partialExtraFields record !! k) → extraKeyOk k) →
  ∀ k, is_Some (partialExtraFields
                  (forEntries (assignCell indices) index row record) !! k)
       → extraKeyOk k.
Proof.
  revert index record. induction row as [|c row IH]; intros index record Hrec;
    simpl; [done|].
  apply IH. by apply assignCell_extra_keys.
Qed.

Lemma rowToRecord_extra_keys names row k :
  is_Some (partialExtraFields (rowToRecord names row) !! k) → extraKeyOk k.
Proof.
  apply forEntries_extra_keys. intros k' [c Hc]. simpl in Hc.
  by rewrite lookup_empty in Hc.
Qed.

Lemma assignCell_extra_is_Some names index cellValue record k :
  is_Some (partialExtraFields
             (assignCell (fieldIndices names) index cellValue record) !! k) ↔
  is_Some (partialExtraFields record !! k)
  ∨ (keyAt names index = k ∧ extraKeyOk k).
Proof.
  unfold assignCell, extraKeyOk. fold (keyAt names index).
  destruct (isRequiredField (keyAt names index)) eqn:Hreq.
  - assert (partialExtraFields
              (match cellValue with
               | CStr s => setRequired (keyAt names index) s record
               | _ => record
               end) = partialExtraFields record) as -> by (by destruct cellValue).
    split; [by left|]. intros [?|[<- [? _]]]; [done|congruence].
  - unfold setExtraField.
    destruct (decide (keyAt names index = "__proto__")) as [Hproto|Hproto].
    + split; [by left|]. intros [?|[<- [_ ?]]]; done.
    + simpl. rewrite lookup_insert_is_Some'. split.
      * intros [<-|?]; [by right|by left].
      * intros [?|[? _]]; [by right|by left].
Qed.

(** The keys of [extraFields] after the loop are the keys it had before
    and the storable keys of the visited columns. *)
Lemma forEntries_extra_is_Some names row index record k :
  is_Some (partialExtraFields
             (forEntries (assignCell (fieldIndices names)) index row record) !! k) ↔
  is_Some (partialExtraFields record !! k)
  ∨ ∃ j, (index ≤ j < index + length row)%nat ∧ keyAt names j = k ∧ extraKeyOk k.
Proof.
  revert index record. induction row as [|c row IH]; intros index record; simpl.
  - split; [by left|]. intros [?|(j & ? & _)]; [done|lia].
  - rewrite IH, assignCell_extra_is_Some. split.
    + intros [[?|[? ?]]|(j & ? & ? & ?)].
      * by left.
      * right. exists index. split; [lia|done].
      * right. exists j. split; [lia|done].
    + intros [?|(j & Hj & Hkey & Hok)]; [by left; left|].
      destruct (decide (j = index)) as [->|Hne].
      * left. by right.
      * right. exists j. split; [lia|done].
Qed.

Lemma rowToRecord_extra_is_Some names row k :
  is_Some (partialExtraFields (rowToRecord names row) !! k) ↔
  ∃ j, (j < length row)%nat ∧ keyAt names j = k ∧ extraKeyOk k.
Proof.
  unfold rowToRecord. rewrite forEntries_extra_is_Some. simpl. split.
  - intros [[c Hc]|(j & ? & ? & ?)].
    + by rewrite lookup_empty in Hc.
    + exists j. split; [lia|done].
  - intros (j & ? & ? & ?). right. exists j. split; [lia|done].
Qed.

Lemma extraCells_length extraKeys (m : gmap string Cell) :
  (length (extraCells extraKeys m) ≤ length extraKeys)%nat.
Proof.
  induction extraKeys as [|k ks IH]; simpl; [done|].
  destruct (m !! k); simpl; lia.
Qed.

Lemma extraCells_lookup extraKeys (m : gmap string Cell) i c :
  extraCells extraKeys m !! i = Some c →
  ∃ k, extraKeys !! i = Some k ∧ m !! k = Some c.
Proof.
  revert i. induction extraKeys as [|k ks IH]; intros i; simpl; [done|].
  destruct (m !! k) as [c'|] eqn:Hk; [|done].
  destruct i as [|i]; simpl.
  - intros [= ->]. by exists k.
  - apply IH.
Qed.

Lemma extraCells_delete extraKeys k (m : gmap string Cell) :
  k ∉ extraKeys → extraCells extraKeys (delete k m) = extraCells extraKeys m.
Proof.
  induction extraKeys as [|k' ks IH]; simpl; [done|].
  intros [Hne Hks]%not_elem_of_cons.
  rewrite lookup_delete_ne by done. destruct (m !! k'); [|done].
  by rewrite IH.
Qed.

(** When the cells are as many as the extra fields, every extra field
    has its cell. *)
Lemma extraCells_covers extraKeys (m : gmap string Cell) k c :
  NoDup extraKeys →
  length (extraCells extraKeys m) = size m →
  m !! k = Some c →
  ∃ i, extraKeys !! i = Some k ∧ extraCells extraKeys m !! i = Some c.
Proof.
  revert m. induction extraKeys as [|k' ks IH]; intros m Hnd Hsize Hk; simpl in *.
  - symmetry in Hsize. apply map_size_empty_inv in Hsize. subst m.
    by rewrite lookup_empty in Hk.
  - apply NoDup_cons in Hnd as [Hk' Hnd].
    destruct (m !! k') as [c'|] eqn:Hc'.
    + destruct (decide (k' = k)) as [->|Hne].
      * exists 0%nat. simpl. by rewrite Hc' in Hk.
      * destruct (IH (delete k' m)) as (i & Hi & Hcell); [done| |by rewrite lookup_delete_ne|].
        { rewrite extraCells_delete by done.
          rewrite map_size_delete, Hc'. simpl in Hsize. lia. }
        exists (S i). simpl. by rewrite extraCells_delete in Hcell.
    + symmetry in Hsize. apply map_size_empty_inv in Hsize. subst m.
      by rewrite lookup_empty in Hk.
Qed.

(** ** Properties of [parseJobListings] *)

Section Properties.
Context {formats : StringFormats}.

(** Only the [majorDimension] and [values] properties of the response
    are read. *)
Lemma parseJobListings_props props props' :
  getProp "majorDimension" props = getProp "majorDimension" props' →
  getProp "values" props = getProp "values" props' →
  JobListingJson.parseJobListings (JObj props)
  = JobListingJson.parseJobListings (JObj props').
Proof.
  intros Hdim Hvalues.
  unfold JobListingJson.parseJobListings, JobListingJson.jobListingDataPipeline,
    JobListingJson.initialResponseProcessor.
  by rewrite Hdim, Hvalues.
Qed.

(** On a sheet with an accepted header and accepted rows the result is
    the listings of the rows that yield one, in row order. *)
Lemma parseJobListings_sheet names table :
  headerAccepted names → Forall rowAccepted table →
  JobListingJson.parseJobListings (sheet (headerJs names) (rowToJs <$> table))
  = omap (rowListing names) table.
Proof.
  intros Hhdr Htable. unfold JobListingJson.parseJobListings.
  destruct table as [|row table].
  - destruct (JobListingJson.jobListingDataPipeline _) as [out|] eqn:Hout; [|done].
    apply jobListingDataPipeline_Some in Hout
      as (props & names' & table' & [= <-] & _ & Hvalues & _ & _ & Hne & _).
    injection Hvalues as _ Hrows. by destruct table'.
  - assert (JobListingJson.jobListingDataPipeline
              (sheet (headerJs names) (rowToJs <$> row :: table))
            = Some (omap (rowListing names) (row :: table))) as ->; [|done].
    apply jobListingDataPipeline_Some. eexists _, names, (row :: table).
    split; [done|]. split_and!; done.
Qed.

(** Every listing in the output meets the per-field constraints. *)
Lemma parseJobListings_wf (apiData : JsValue) :
  Forall wfJobListing (JobListingJson.parseJobListings apiData).
Proof.
  destruct (parseJobListings_cases apiData)
    as [[_ ->]|(props & names & table & _ & _ & _ & _ & _ & _ & ->)].
  - constructor.
  - apply Forall_forall. intros l (row & _ & Hl)%list_elem_of_omap.
    by eapply rowListing_wf.
Qed.


(** C6. Every job listing in the array returned by [parseJobListings]
    meets all per-field constraints at once: [company], [jobTitle] and
    [appStatus] are non-empty text, [dateSubmitted] and
    [dateLastModified] are text in the date-time format, [url] is empty
    or a valid URL, and every value of [extraFields] is a scalar cell;
    [location] and [notes] are text by the type of the record. *)
Theorem parseJobListings_all_valid (apiData : JsValue) (l : JobListing) :
  l ∈ JobListingJson.parseJobListings apiData →
  (1 ≤ String.length (company l))%nat
  ∧ (1 ≤ String.length (jobTitle l))%nat
  ∧ (1 ≤ String.length (appStatus l))%nat
  ∧ isDatetime (dateSubmitted l) = true
  ∧ isDatetime (dateLastModified l) = true
  ∧ (url l = "" ∨ isUrl (url l) = true)
  ∧ ∀ k c, extraFields l !! k = Some c → validCell c = true.
Proof.
  intros Hl. pose proof (parseJobListings_wf apiData) as Hwf.
  rewrite Forall_forall in Hwf. apply (Hwf l Hl).
Qed.

Lemma initialResponseProcessor_accepts v :
  is_Some (JobListingJson.initialResponseProcessor v) ↔ envelopeAccepted v = true.
Proof.
  split.
  - intros [d Hd]. apply initialResponseProcessor_Some in Hd
      as (props & hdr & table & -> & Hdim & Hvalues & Hacc & Hne & _).
    unfold envelopeAccepted. rewrite Hdim, Hvalues.
    apply andb_true_iff. split; [apply andb_true_iff; split|].
    { by apply bool_decide_eq_true. }
    { apply bool_decide_eq_true. destruct table; [done|simpl; lia]. }
    apply forallb_forall.
    intros r [row [-> Hrow]]%list_elem_of_In%list_elem_of_fmap.
    apply rowValidator_is_Some. exists row. apply rowValidator_Some.
    split; [done|]. rewrite Forall_forall in Hacc. by apply Hacc.
  - intros Hv. destruct v; simpl in Hv; try discriminate.
    destruct (getProp "majorDimension" props) as [| | | |dim| | |] eqn:Hdim;
      try discriminate.
    destruct (getProp "values" props) as [| | | | |items| |] eqn:Hvalues;
      try discriminate.
    apply andb_true_iff in Hv as [[Hrows Hlen]%andb_true_iff Hall].
    apply bool_decide_eq_true in Hrows as ->.
    apply bool_decide_eq_true in Hlen.
    assert (is_Some (mapM (Zod.parseArray jsonSheetRowValidator) items))
      as [typed Htyped].
    { apply mapM_is_Some, Forall_forall. intros r Hr. simpl.
      apply rowValidator_is_Some. rewrite forallb_forall in Hall.
      by apply Hall, list_elem_of_In. }
    apply mapM_Some, Forall2_rowToJs in Htyped as [-> Hacc].
    rewrite length_fmap in Hlen.
    destruct typed as [|hdr [|row table]]; simpl in Hlen; try lia.
    eexists. apply initialResponseProcessor_Some.
    exists props, hdr, (row :: table). done.
Qed.

(** C2, as the code has it.  The envelope stage accepts a value if and
    only if it is an object whose [majorDimension] property is the text
    ["ROWS"] and whose [values] property is an array of at least 2 rows,
    every row an array of at least 8 cells (one per required field), each
    cell a text, a number other than NaN, or a boolean.  On every other
    value the stage fails and [parseJobListings] returns the empty
    array. *)
Theorem envelope_accepted_iff (apiData : JsValue) :
  (is_Some (JobListingJson.initialResponseProcessor apiData)
   ↔ envelopeAccepted apiData = true)
  ∧ (envelopeAccepted apiData = false
     → JobListingJson.initialResponseProcessor apiData = None
       ∧ JobListingJson.parseJobListings apiData = []).
Proof.
  split; [apply initialResponseProcessor_accepts|].
  intros Hrej.
  assert (JobListingJson.initialResponseProcessor apiData = None) as Hnone.
  { apply eq_None_not_Some. rewrite initialResponseProcessor_accepts.
    by rewrite Hrej. }
  split; [done|].
  unfold JobListingJson.parseJobListings, JobListingJson.jobListingDataPipeline.
  by rewrite Hnone.
Qed.

(** C3. Whatever the data rows, [parseJobListings] yields a non-empty
    result only if the header row has at least 8 entries, holds no
    duplicate name and holds every one of the 8 required field names;
    a header that violates one of these makes the result empty. *)
Theorem header_required_set props (header : JsValue) (dataRows : list JsValue) :
  getProp "values" props = JArr (header :: dataRows) →
  (JobListingJson.parseJobListings (JObj props) ≠ [] → headerRowAccepted header)
  ∧ (¬ headerRowAccepted header → JobListingJson.parseJobListings (JObj props) = []).
Proof.
  intros Hvalues.
  assert (JobListingJson.parseJobListings (JObj props) = []
          ∨ headerRowAccepted header) as [Hempty|Hok].
  { destruct (parseJobListings_cases (JObj props))
      as [[_ ->]|(props' & names & table & [= <-] & _ & Hv & Hacc & _)];
      [by left|right].
    rewrite Hvalues in Hv. injection Hv as -> _. by exists names. }
  - split; [by intros []|done].
  - split; [done|by intros []].
Qed.

Lemma envelopeRows_typed (dataRows : list JsValue) :
  Forall envelopeRow dataRows →
  ∃ table, dataRows = rowToJs <$> table ∧ Forall rowAccepted table.
Proof.
  intros Hrows.
  assert (is_Some (mapM (Zod.parseArray jsonSheetRowValidator) dataRows))
    as [table Htable].
  { apply mapM_is_Some. eapply Forall_impl; [exact Hrows|].
    intros r Hr. by apply rowValidator_is_Some. }
  exists table. by apply Forall2_rowToJs, mapM_Some.
Qed.

(** A header is an accepted header of names, or no sheet under it yields
    a listing. *)
Lemma header_cases (header : JsValue) :
  headerRowAccepted header
  ∨ ∀ dataRows, JobListingJson.parseJobListings (sheet header dataRows) = [].
Proof.
  set (probe := replicate (length requiredFields) (CStr "")).
  destruct (parseJobListings_cases (sheet header [rowToJs probe]))
    as [[Hnone _]|(props & names & table & [= <-] & _ & Hv & Hacc & _)].
  - right. intros dataRows.
    destruct (parseJobListings_cases (sheet header dataRows))
      as [[_ ->]|(props & names & table & [= <-] & _ & Hv & Hacc & _)]; [done|].
    injection Hv as -> _. exfalso.
    pose proof (parseJobListings_sheet names [probe] Hacc) as Hprobe.
    unfold JobListingJson.parseJobListings in Hprobe.
    assert (is_Some (JobListingJson.jobListingDataPipeline
                       (sheet (headerJs names) [rowToJs probe]))) as [out Hout];
      [|by rewrite Hout in Hnone].
    eexists. apply jobListingDataPipeline_Some.
    eexists _, names, [probe]. split; [done|]. split_and!; try done.
    repeat constructor.
  - left. injection Hv as -> _. by exists names.
Qed.

Lemma rowOutput_typed (names : list string) (row : list Cell) :
  headerAccepted names → rowAccepted row →
  rowOutput (headerJs names) (rowToJs row) = option_list (rowListing names row).
Proof.
  intros Hhdr Hrow. unfold rowOutput.
  change [rowToJs row] with (rowToJs <$> [row]).
  rewrite parseJobListings_sheet; [|done|by constructor].
  simpl. by destruct (rowListing names row).
Qed.

(** Row by row: under accepted rows, the output is the concatenation of
    what each data row yields on its own under the same header. *)
Lemma parseJobListings_rows (header : JsValue) (dataRows : list JsValue) :
  Forall envelopeRow dataRows →
  JobListingJson.parseJobListings (sheet header dataRows)
  = dataRows ≫= rowOutput header.
Proof.
  intros Hrows. destruct (header_cases header) as [(names & -> & Hacc)|Hnone].
  - apply envelopeRows_typed in Hrows as (table & -> & Htable).
    rewrite parseJobListings_sheet by done.
    induction Htable as [|row table Hrow _ IH]; [done|].
    rewrite fmap_cons, bind_cons, <- IH, rowOutput_typed by done.
    simpl. by destruct (rowListing names row).
  - rewrite Hnone. clear Hrows.
    induction dataRows as [|r dataRows IH]; [done|].
    rewrite bind_cons, <- IH. unfold rowOutput. by rewrite Hnone.
Qed.

(** C4, as the code has it.  Under any header and among rows that each
    pass the envelope's row check, removing data row [i], or replacing it
    by any row that passes the same check, changes nothing about the
    other rows: the output before and after is the same sequence of
    listings of the rows in front of [i] and of the rows behind it, with
    only the contribution of row [i] itself in between. *)
Theorem row_independence (header : JsValue) (front back : list JsValue)
    (row_i row_i' : JsValue) :
  Forall envelopeRow (front ++ row_i :: back) → envelopeRow row_i' →
  JobListingJson.parseJobListings (sheet header (front ++ row_i :: back))
    = (front ≫= rowOutput header) ++ rowOutput header row_i
        ++ (back ≫= rowOutput header)
  ∧ JobListingJson.parseJobListings (sheet header (front ++ row_i' :: back))
    = (front ≫= rowOutput header) ++ rowOutput header row_i'
        ++ (back ≫= rowOutput header)
  ∧ JobListingJson.parseJobListings (sheet header (front ++ back))
    = (front ≫= rowOutput header) ++ (back ≫= rowOutput header).
Proof.
  intros Hrows Hrow'.
  apply Forall_app in Hrows as [Hfront Hback].
  apply Forall_cons in Hback as [Hrow Hback].
  rewrite !parseJobListings_rows.
  - by rewrite !bind_app, !bind_cons.
  - by apply Forall_app.
  - apply Forall_app. split; [done|]. by constructor.
  - apply Forall_app. split; [done|]. by constructor.
Qed.

(** C7, as the code has it.  Under an accepted header, a data row that
    is shorter than the header but has at least 8 valid cells does not
    fail the batch: the rows around it contribute what they contribute
    without it, the short row itself contributes its listing or nothing,
    and no property named by a header entry at or beyond the row's length
    is set on its partial record. *)
Theorem short_row_not_fatal (names : list string) (cells : list Cell)
    (front back : list JsValue) :
  headerAccepted names → rowAccepted cells →
  (length cells < length names)%nat →
  Forall envelopeRow (front ++ back) →
  JobListingJson.parseJobListings
    (sheet (headerJs names) (front ++ rowToJs cells :: back))
    = (front ≫= rowOutput (headerJs names))
        ++ option_list (jobListingValidator (rowToRecord names cells))
        ++ (back ≫= rowOutput (headerJs names))
  ∧ ∀ c name, (length cells ≤ c)%nat → names !! c = Some name →
      required (rowToRecord names cells) !! name = None
      ∧ partialExtraFields (rowToRecord names cells) !! name = None.
Proof.
  intros Hhdr Hcells Hshort Hrows. split.
  - apply Forall_app in Hrows as [Hfront Hback].
    assert (envelopeRow (rowToJs cells)) as Hrow.
    { apply rowValidator_is_Some. exists cells. by apply rowValidator_Some. }
    rewrite parseJobListings_rows
      by (apply Forall_app; split; [done|by constructor]).
    rewrite bind_app, bind_cons. by rewrite rowOutput_typed.
  - intros c name Hc Hname. apply rowToRecord_unset.
    intros j Hj. apply (keyAt_earlier names c); [apply Hhdr|done|lia].
Qed.

(** C8. In a table that passes envelope and header validation, a data
    row that fails validation is the only one dropped on its account:
    the output is the listings of the other rows that validate, in their
    original order, so every other valid row still appears. *)
Theorem invalid_row_dropped (apiData d : JsValue) (names : list string)
    (front back : list (list Cell)) (row : list Cell) :
  JobListingJson.initialResponseProcessor apiData = Some d →
  apiDataValidator d = Some (mkApiData names (front ++ row :: back)) →
  jobListingValidator (rowToRecord names row) = None →
  JobListingJson.parseJobListings apiData
    = omap (rowListing names) front ++ omap (rowListing names) back
  ∧ ∀ other l, other ∈ front ++ back →
      jobListingValidator (rowToRecord names other) = Some l →
      l ∈ JobListingJson.parseJobListings apiData.
Proof.
  intros Hd Hapi Hrow.
  assert (JobListingJson.parseJobListings apiData
          = omap (rowListing names) front ++ omap (rowListing names) back) as ->.
  { unfold JobListingJson.parseJobListings, JobListingJson.jobListingDataPipeline.
    rewrite Hd. simpl. unfold JobListingJson.recordsTransformer.
    rewrite Hapi. simpl. rewrite validRecords_omap, omap_app. simpl.
    unfold rowListing at 2. by rewrite Hrow. }
  split; [done|]. intros other l Hother Hl.
  rewrite <- omap_app. apply list_elem_of_omap. by exists other.
Qed.

(** C5, as the code has it.  On an input that passes envelope and header
    validation, for every header column whose name is neither a required
    field name nor ["__proto__"], and every data row that validates and
    has a cell in that column, the row's listing is in the output and its
    [extraFields] maps the column name to that cell, whatever the cell's
    type, provided the name is not empty or the row is no longer than
    the header. *)
Theorem extra_columns_covered (apiData d : JsValue) (parsed : ApiData)
    (row : list Cell) (l : JobListing) (c : nat) (name : string) (cell : Cell) :
  JobListingJson.initialResponseProcessor apiData = Some d →
  apiDataValidator d = Some parsed →
  row ∈ rows parsed →
  jobListingValidator (rowToRecord (fields parsed) row) = Some l →
  fields parsed !! c = Some name →
  isRequiredField name = false →
  row !! c = Some cell →
  name ≠ "__proto__" →
  name ≠ "" ∨ (length row ≤ length (fields parsed))%nat →
  l ∈ JobListingJson.parseJobListings apiData
  ∧ extraFields l !! name = Some cell.
Proof.
  intros Hd Hapi Hrow Hl Hname Hreq Hcell Hproto Hside. split.
  - unfold JobListingJson.parseJobListings, JobListingJson.jobListingDataPipeline.
    rewrite Hd. simpl. unfold JobListingJson.recordsTransformer.
    rewrite Hapi. simpl. rewrite validRecords_omap.
    apply list_elem_of_omap. by exists row.
  - apply apiDataValidator_Some in Hapi as (props & _ & _ & Hhdr & _).
    apply jobListingValidator_Some in Hl as (_ & _ & _ & _ & _ & _ & _ & _ & -> & _).
    apply (rowToRecord_extra _ _ c); try done. apply Hhdr.
Qed.

End Properties.

(** The cells cover at least the leading columns the listing has values
    for. *)
Lemma extraCells_prefix (present rest : list string) (m : gmap string Cell) :
  (∀ k, k ∈ present → is_Some (m !! k)) →
  (length present ≤ length (extraCells (present ++ rest) m))%nat.
Proof.
  induction present as [|k ks IH]; intros Hpresent; simpl; [lia|].
  destruct (Hpresent k ltac:(apply list_elem_of_here)) as [c ->]. simpl.
  apply le_n_S, IH. intros k' Hk'. by apply Hpresent, list_elem_of_further.
Qed.

Lemma size_le_length_keys (keys : list string) (m : gmap string Cell) :
  (∀ k, is_Some (m !! k) → k ∈ keys) → (size m ≤ length keys)%nat.
Proof.
  intros Hkeys. rewrite <- (size_dom (D := gset string)).
  etrans; [|apply size_list_to_set_le].
  apply subseteq_size. intros k Hk. apply elem_of_list_to_set, Hkeys.
  by apply elem_of_dom.
Qed.

Lemma extraCells_le_size extraKeys (m : gmap string Cell) :
  NoDup extraKeys → (length (extraCells extraKeys m) ≤ size m)%nat.
Proof.
  revert m. induction extraKeys as [|k ks IH]; intros m Hnd; simpl; [lia|].
  apply NoDup_cons in Hnd as [Hk Hnd].
  destruct (m !! k) as [c|] eqn:Hc; simpl; [|lia].
  rewrite <- (extraCells_delete ks k m Hk).
  pose proof (IH (delete k m) Hnd) as Hle.
  rewrite map_size_delete, Hc in Hle. simpl in Hle.
  assert (size m ≠ 0)%nat; [|lia].
  intros ->%map_size_empty_inv. by rewrite lookup_empty in Hc.
Qed.

(** A listing lays out when the columns it has values for are the
    leading ones. *)
Lemma listingToRow_is_Some (present rest : list string) (l : JobListing) :
  NoDup (present ++ rest) →
  (∀ k, k ∈ present ↔ is_Some (extraFields l !! k)) →
  is_Some (listingToRow (present ++ rest) l).
Proof.
  intros Hnd Hpresent. unfold listingToRow.
  rewrite decide_True; [done|].
  pose proof (extraCells_prefix present rest (extraFields l)
                (λ k, proj1 (Hpresent k))).
  pose proof (size_le_length_keys present (extraFields l)
                (λ k, proj2 (Hpresent k))).
  pose proof (extraCells_le_size (present ++ rest) (extraFields l) Hnd).
  lia.
Qed.

Section Reserialization.
Context {formats : StringFormats}.

Lemma isRequiredField_requiredFields name :
  isRequiredField name = true ↔ name ∈ requiredFields.
Proof.
  unfold isRequiredField, requiredFieldsSet.
  by rewrite bool_decide_eq_true, elem_of_list_to_set.
Qed.

(** The header of a re-serialized sheet is accepted. *)
Lemma reserialized_header extraKeys :
  NoDup extraKeys → Forall extraKeyOk extraKeys →
  headerAccepted (requiredFields ++ extraKeys).
Proof.
  intros Hnd Hkeys. split_and!.
  - rewrite length_app. lia.
  - apply NoDup_app. split_and!.
    + by apply (bool_decide_unpack _).
    + intros k Hreq Hk. rewrite Forall_forall in Hkeys.
      destruct (Hkeys k Hk) as [Hnot _].
      apply isRequiredField_requiredFields in Hreq. congruence.
    + done.
  - intros rf Hrf. apply elem_of_app. by left.
Qed.

(** The row of a valid listing is accepted and yields the listing
    again. *)
Lemma listingToRow_rowListing extraKeys l row :
  NoDup extraKeys → Forall extraKeyOk extraKeys →
  wfJobListing l →
  (∀ k, is_Some (extraFields l !! k) → extraKeyOk k) →
  listingToRow extraKeys l = Some row →
  rowAccepted row ∧ rowListing (requiredFields ++ extraKeys) row = Some l.
Proof.
  intros Hnd Hkeys Hwf Hlkeys Hrow. unfold listingToRow in Hrow.
  destruct (decide _) as [Hsize|]; [|discriminate].
  apply (inj Some) in Hrow. subst row.
  pose proof (reserialized_header extraKeys Hnd Hkeys) as Hhdr.
  pose proof (extraCells_length extraKeys (extraFields l)) as Hlen.
  split.
  - split; [rewrite length_app; simpl; lia|].
    apply Forall_app. split; [by repeat constructor|].
    apply Forall_lookup. intros i c (k & _ & Hk)%extraCells_lookup.
    destruct Hwf as (_ & _ & _ & _ & _ & _ & Hcells). by apply (Hcells k).
  - unfold rowListing. apply jobListingValidator_Some.
    destruct Hhdr as (_ & Hnd' & _).
    assert (∀ c name s,
              requiredFields !! c = Some name →
              requiredCells l !! c = Some (CStr s) →
              required (rowToRecord (requiredFields ++ extraKeys)
                          (requiredCells l ++ extraCells extraKeys (extraFields l)))
                !! name = Some s) as Hreq.
    { intros c name s Hname Hcell. apply (rowToRecord_required _ _ c); [done|..].
      - by apply lookup_app_l_Some.
      - apply isRequiredField_requiredFields. by eapply list_elem_of_lookup_2.
      - by apply lookup_app_l_Some. }
    split_and!; [by apply (Hreq 0%nat)|by apply (Hreq 1%nat)|by apply (Hreq 2%nat)
                |by apply (Hreq 3%nat)|by apply (Hreq 4%nat)|by apply (Hreq 5%nat)
                |by apply (Hreq 6%nat)|by apply (Hreq 7%nat)| |done].
    apply map_eq. intros k.
    destruct (extraFields l !! k) as [c|] eqn:Hk.
    + destruct (extraCells_covers extraKeys _ k c Hnd Hsize Hk) as (i & Hi & Hcell).
      destruct (Hlkeys k ltac:(by rewrite Hk)) as [Hnot Hproto].
      symmetry. apply (rowToRecord_extra _ _ (length requiredFields + i)); try done.
      right. rewrite !length_app. simpl. lia.
    + symmetry.
      destruct (partialExtraFields _ !! k) as [c|] eqn:Hrec; [|done]. exfalso.
      destruct (rowToRecord_extra_keys _ _ k ltac:(by rewrite Hrec)) as [Hnot _].
      destruct (rowToRecord_unset (requiredFields ++ extraKeys)
                  (requiredCells l ++ extraCells extraKeys (extraFields l)) k)
        as [_ Hnone]; [|congruence].
      intros j Hj Hkey. rewrite keyAt_lookup in Hkey.
      rewrite length_app in Hj.
      destruct (decide (j < length requiredFields)%nat) as [Hlt|Hge].
      * destruct (lookup_lt_is_Some_2 requiredFields j Hlt) as [name Hname].
        rewrite (lookup_app_l_Some _ _ _ _ Hname) in Hkey. simpl in Hkey. subst.
        apply list_elem_of_lookup_2, isRequiredField_requiredFields in Hname.
        congruence.
      * destruct (lookup_lt_is_Some_2 (extraCells extraKeys (extraFields l))
                    (j - length requiredFields)) as [c' Hc'].
        { change (length (requiredCells l)) with (length requiredFields) in Hj. lia. }
        apply extraCells_lookup in Hc' as (k' & Hk' & Hm).
        rewrite lookup_app_r, Hk' in Hkey by lia. simpl in Hkey. congruence.
Qed.

(** Every extra-field key of a listing in the output is a key the record
    builder can store. *)
Lemma parseJobListings_extra_keys apiData l k :
  l ∈ JobListingJson.parseJobListings apiData →
  is_Some (extraFields l !! k) → extraKeyOk k.
Proof.
  intros Hl Hk.
  destruct (parseJobListings_cases apiData)
    as [[_ Hnil]|(props & names & table & _ & _ & _ & _ & _ & _ & Hout)].
  - rewrite Hnil in Hl. by apply elem_of_nil in Hl.
  - rewrite Hout in Hl. apply list_elem_of_omap in Hl as (row & _ & Hrow).
    unfold rowListing in Hrow.
    apply jobListingValidator_Some in Hrow
      as (_ & _ & _ & _ & _ & _ & _ & _ & Hextra & _).
    rewrite Hextra in Hk. by eapply rowToRecord_extra_keys.
Qed.

Lemma extraKeyOrder_NoDup names listings :
  NoDup names → NoDup (extraKeyOrder names listings).
Proof.
  intros Hnd. apply NoDup_filter, NoDup_app. split_and!.
  - done.
  - intros k Hk. destruct (decide ("" ∈ names)) as [|Hnot]; [apply not_elem_of_nil|].
    intros Hk'%list_elem_of_singleton. subst k. by apply Hnot.
  - destruct (decide ("" ∈ names)); [constructor|apply NoDup_singleton].
Qed.

(** The listing of a row lays out in the column order of its header. *)
Lemma rowListing_lays_out names row l listings :
  NoDup names →
  rowListing names row = Some l →
  (∀ k, is_Some (extraFields l !! k) → isExtraKeyOf listings k = true) →
  (∀ k, isExtraKeyOf listings k = true → extraKeyOk k) →
  is_Some (listingToRow (extraKeyOrder names listings) l).
Proof.
  intros Hnd Hl Hused Hok. unfold rowListing in Hl.
  apply jobListingValidator_Some in Hl
    as (_ & _ & _ & _ & _ & _ & _ & _ & Hextra & _).
  pose proof (extraKeyOrder_NoDup names listings Hnd) as Hnd'.
  destruct (decide (length row ≤ length names)%nat) as [Hshort|Hlong].
  - unfold extraKeyOrder in *.
    set (tail := if decide ("" ∈ names) then [] else [""]) in *. clearbody tail.
    rewrite <- (take_drop (length row) names) in Hnd' |- *.
    rewrite <- app_assoc, filter_app in Hnd' |- *.
    apply listingToRow_is_Some; [done|]. intros k.
    rewrite Hextra, rowToRecord_extra_is_Some, list_elem_of_filter. split.
    + intros [Hk (j & [Hj Hlt]%lookup_take_Some)%list_elem_of_lookup_1].
      exists j. split; [done|]. split; [by apply keyAt_Some|by apply Hok].
    + intros (j & Hj & Hkey & Hkok). split.
      * apply Hused. rewrite Hextra. apply rowToRecord_extra_is_Some.
        by exists j.
      * destruct (lookup_lt_is_Some_2 names j ltac:(lia)) as [k' Hk'].
        rewrite (keyAt_Some _ _ _ Hk') in Hkey. subst k'.
        apply (list_elem_of_lookup_2 _ j), lookup_take_Some. done.
  - rewrite <- (app_nil_r (extraKeyOrder names listings)) in Hnd' |- *.
    apply listingToRow_is_Some; [done|]. intros k.
    rewrite Hextra, rowToRecord_extra_is_Some. unfold extraKeyOrder.
    rewrite list_elem_of_filter, elem_of_app. split.
    + intros [Hk [(j & Hj)%list_elem_of_lookup_1|Htail]].
      * exists j. pose proof (lookup_lt_Some _ _ _ Hj).
        split; [lia|]. split; [by apply keyAt_Some|by apply Hok].
      * destruct (decide ("" ∈ names)); [by apply elem_of_nil in Htail|].
        apply list_elem_of_singleton in Htail as ->.
        exists (length names). split; [lia|].
        split; [by apply keyAt_overflow|by apply Hok].
    + intros (j & Hj & Hkey & Hkok). split.
      * apply Hused. rewrite Hextra. apply rowToRecord_extra_is_Some.
        by exists j.
      * rewrite keyAt_lookup in Hkey.
        destruct (names !! j) as [k'|] eqn:Hk'; simpl in Hkey; subst k.
        { left. by eapply list_elem_of_lookup_2. }
        destruct (decide ("" ∈ names)); [by left|right].
        by apply list_elem_of_singleton.
Qed.

(** Every result of [parseJobListings] re-serializes: in the column
    order of the header it was parsed under, when there was one. *)
Lemma reserialization_exists (apiData : JsValue) :
  ∃ extraKeys reserialized,
    toSheet extraKeys (JobListingJson.parseJobListings apiData) = Some reserialized.
Proof.
  destruct (parseJobListings_cases apiData)
    as [[_ Hnil]|(props & names & table & _ & _ & _ & Hhdr & _ & _ & Hout)].
  - rewrite Hnil. exists []. eexists. reflexivity.
  - exists (extraKeyOrder names (JobListingJson.parseJobListings apiData)).
    unfold toSheet. destruct Hhdr as (_ & Hnd & _).
    rewrite bool_decide_true by (by apply extraKeyOrder_NoDup). simpl.
    assert (forallb (isExtraKeyOf (JobListingJson.parseJobListings apiData))
              (extraKeyOrder names (JobListingJson.parseJobListings apiData))
            = true) as ->.
    { apply forallb_forall. intros k Hk%list_elem_of_In.
      by apply list_elem_of_filter in Hk as [Hk _]. }
    assert (is_Some (mapM (listingToRow
                             (extraKeyOrder names
                                (JobListingJson.parseJobListings apiData)))
                       (JobListingJson.parseJobListings apiData)))
      as [rows' ->]; [|by eexists].
    apply mapM_is_Some, Forall_forall. intros l Hl. simpl.
    pose proof Hl as Hrow. rewrite Hout in Hrow.
    apply list_elem_of_omap in Hrow as (row & _ & Hrow).
    apply (rowListing_lays_out names row); [done|done| |].
    + intros k Hk. apply existsb_exists. exists l.
      split; [by apply list_elem_of_In|by apply bool_decide_eq_true].
    + intros k (l' & Hl'%list_elem_of_In & Hk%bool_decide_eq_true)%existsb_exists.
      by eapply parseJobListings_extra_keys.
Qed.

Lemma reparse_toSheet (apiData : JsValue) (extraKeys : list string)
    (reserialized : JsValue) :
  toSheet extraKeys (JobListingJson.parseJobListings apiData) = Some reserialized →
  JobListingJson.parseJobListings reserialized
  = JobListingJson.parseJobListings apiData.
Proof.
  unfold toSheet. intros Hsheet.
  destruct (bool_decide (NoDup extraKeys) && _) eqn:Hcheck; [|discriminate].
  apply andb_true_iff in Hcheck as [Hnd%bool_decide_eq_true Hkeys].
  apply bind_Some in Hsheet as (table & Htable & [= <-]).
  assert (Forall extraKeyOk extraKeys) as Hok.
  { apply Forall_forall. intros k Hk. rewrite forallb_forall in Hkeys.
    apply list_elem_of_In, Hkeys in Hk. unfold isExtraKeyOf in Hk.
    apply existsb_exists in Hk as (l & Hl%list_elem_of_In & Hlk%bool_decide_eq_true).
    by eapply parseJobListings_extra_keys. }
  pose proof (parseJobListings_wf apiData) as Hwf.
  assert (∀ l k, l ∈ JobListingJson.parseJobListings apiData →
                 is_Some (extraFields l !! k) → extraKeyOk k) as Hlkeys
    by (intros l k; apply parseJobListings_extra_keys).
  apply mapM_Some in Htable.
  revert Hwf Hlkeys Htable.
  generalize (JobListingJson.parseJobListings apiData). intros out Hwf Hlkeys Htable.
  assert (Forall rowAccepted table ∧ omap (rowListing (requiredFields ++ extraKeys)) table = out)
    as [Hacc Hout].
  { induction Htable as [|l row out table Hrow _ IH]; [done|].
    apply Forall_cons in Hwf as [Hl Hwf].
    destruct (listingToRow_rowListing extraKeys l row) as [Hrowacc Hlisting];
      try done.
    { intros k. apply Hlkeys, list_elem_of_here. }
    destruct IH as [Hacc Hout]; [done| |].
    { intros l' k Hl'. apply Hlkeys. by apply list_elem_of_further. }
    split; [by constructor|]. cbn [omap list_omap]. by rewrite Hlisting, Hout. }
  rewrite parseJobListings_sheet; [done| |done].
  by apply reserialized_header.
Qed.

(** C9 (against the re-serialization modelled from the specification).
    The output of [parseJobListings] on any input re-serializes into a
    sheet (header: the 8 required field names, then the extra-field keys;
    one data row per listing, cells in column order), and parsing any
    such re-serialization yields the same listings again, in the same
    order. *)
Theorem reparse_reserialized (apiData : JsValue) :
  (∃ extraKeys reserialized,
     toSheet extraKeys (JobListingJson.parseJobListings apiData)
     = Some reserialized)
  ∧ ∀ extraKeys reserialized,
      toSheet extraKeys (JobListingJson.parseJobListings apiData)
      = Some reserialized →
      JobListingJson.parseJobListings reserialized
      = JobListingJson.parseJobListings apiData.
Proof.
  split; [apply reserialization_exists|].
  intros extraKeys reserialized. apply reparse_toSheet.
Qed.

End Reserialization.

(** ** The two pre-split variants *)

Section Variants.
Context {formats : StringFormats}.

(** The newer pre-split variant is the second stage of the pipeline. *)
Lemma parseJobListings_second_stage (apiData : JsValue) :
  JobListingJson.parseJobListings apiData
  = match JobListingJson.initialResponseProcessor apiData with
    | Some d => PreSplit.parseJobListings d
    | None => []
    end.
Proof.
  unfold JobListingJson.parseJobListings, JobListingJson.jobListingDataPipeline,
    JobListingJson.recordsTransformer, PreSplit.parseJobListings,
    PreSplit.recordsTransformer.
  destruct (JobListingJson.initialResponseProcessor apiData) as [d|]; [|done].
  simpl. by destruct (apiDataValidator d).
Qed.

End Variants.

(** ** The scenarios of the specification *)

(** Scenario A, the happy path. *)
Example scenario_A :
  Examples.parse (sheet Examples.header9 [JArr Examples.acmeRow])
  = [Examples.acmeListing].
Proof. vm_compute. reflexivity. Qed.

(** Scenario B, the header omits ["url"]. *)
Example scenario_B :
  Examples.parse
    (sheet (headerJs ["company"; "jobTitle"; "location"; "appStatus"; "link";
                      "notes"; "dateSubmitted"; "dateLastModified"; "source"])
       [JArr Examples.acmeRow])
  = [].
Proof. vm_compute. reflexivity. Qed.

(** Scenario C, a row with a bad URL between two valid rows. *)
Example scenario_C :
  Examples.parse
    (sheet Examples.header9
       [JArr Examples.acmeRow; JArr Examples.badUrlRow; JArr Examples.globexRow])
  = [Examples.acmeListing; Examples.globexListing].
Proof. vm_compute. reflexivity. Qed.

(** Scenario D, the header holds ["company"] twice. *)
Example scenario_D :
  Examples.parse
    (sheet (headerJs (requiredFields ++ ["company"])) [JArr Examples.acmeRow])
  = [].
Proof. vm_compute. reflexivity. Qed.

(** Scenario E, only the header row. *)
Example scenario_E : Examples.parse (sheet Examples.header9 []) = [].
Proof. vm_compute. reflexivity. Qed.

(** Scenario F, a nested object in a data row. *)
Example scenario_F :
  Examples.parse
    (sheet Examples.header9
       [JArr Examples.acmeRow;
        JArr (<[5 := JObj []]> Examples.globexRow)])
  = [].
Proof. vm_compute. reflexivity. Qed.

(** ** Concrete instances and counterexamples *)

Lemma headerAccepted_check (names : list string) :
  bool_decide (length requiredFields ≤ length names)%nat
  && noDuplicateFields names && allRequiredPresent names = true →
  headerAccepted names.
Proof.
  intros [[Hlen Hnd]%andb_true_iff Hall]%andb_true_iff. split_and!.
  - by apply bool_decide_eq_true in Hlen.
  - by apply noDuplicateFields_NoDup.
  - by apply allRequiredPresent_spec.
Qed.

Lemma rowAccepted_check (row : list Cell) :
  bool_decide (length requiredFields ≤ length row)%nat
  && forallb validCell row = true →
  rowAccepted row.
Proof.
  intros [Hlen Hrow]%andb_true_iff. split.
  - by apply bool_decide_eq_true in Hlen.
  - apply Forall_forall. intros c Hc. rewrite forallb_forall in Hrow.
    by apply Hrow, list_elem_of_In.
Qed.


(** C1, instances: a wrong [majorDimension] does not keep the getter of
    [values] from running, and the same response as plain data parses. *)
Example getter_runs_after_refused_key :
  @Accessors.parseJobListings exampleFormats
    (Accessors.Object (Returns (JStr "COLUMNS"))
       (Throws (ExnError (ErrorMessage "values cannot be read"))) [])
  = Throws (ExnError (ErrorMessage "values cannot be read"))
  ∧ @Accessors.parseJobListings exampleFormats
      (Accessors.Object (Returns (JStr "ROWS"))
         (Returns (JArr [Examples.header9; JArr Examples.acmeRow])) [])
    = Returns [Examples.acmeListing].
Proof. vm_compute. done. Qed.

(** C2, counterexample: the happy-path table without a [majorDimension]
    property meets the specified envelope condition and is rejected. *)
Lemma envelope_as_specified_fails : ¬ EnvelopeAsSpecified.
Proof.
  intros Hclaim.
  pose proof (proj2 (Hclaim
    (JObj [("values", JArr [Examples.header9; JArr Examples.acmeRow])]))
    eq_refl) as [d Hd].
  vm_compute in Hd. discriminate.
Qed.

(** The second way in which the specified envelope condition is too
    weak: rows shorter than 8 cells. *)
Example envelope_narrow_rows :
  let narrow := sheet (JArr [JStr "company"]) [JArr [JStr "Acme"]] in
  envelopeAsSpecified narrow = true
  ∧ JobListingJson.initialResponseProcessor narrow = None.
Proof. split; vm_compute; reflexivity. Qed.

(** C6, instance: the listing of the happy path. *)
Lemma parseJobListings_all_valid_witness :
  Examples.acmeListing
    ∈ Examples.parse (sheet Examples.header9 [JArr Examples.acmeRow])
  ∧ ((1 ≤ String.length (company Examples.acmeListing))%nat
     ∧ (1 ≤ String.length (jobTitle Examples.acmeListing))%nat
     ∧ (1 ≤ String.length (appStatus Examples.acmeListing))%nat
     ∧ datetimeRegex (dateSubmitted Examples.acmeListing) = true
     ∧ datetimeRegex (dateLastModified Examples.acmeListing) = true
     ∧ (url Examples.acmeListing = ""
        ∨ httpUrl (url Examples.acmeListing) = true)
     ∧ ∀ k c, extraFields Examples.acmeListing !! k = Some c
              → validCell c = true).
Proof.
  assert (Examples.acmeListing
            ∈ Examples.parse (sheet Examples.header9 [JArr Examples.acmeRow]))
    as Hin by (rewrite scenario_A; apply list_elem_of_here).
  split; [exact Hin|].
  exact (@parseJobListings_all_valid exampleFormats
           (sheet Examples.header9 [JArr Examples.acmeRow])
           Examples.acmeListing Hin).
Defined.

(** C3, instance: the happy-path table. *)
Lemma header_required_set_witness :
  getProp "values"
    [("majorDimension", JStr "ROWS");
     ("values", JArr [Examples.header9; JArr Examples.acmeRow])]
  = JArr [Examples.header9; JArr Examples.acmeRow]
  ∧ ((Examples.parse (sheet Examples.header9 [JArr Examples.acmeRow]) ≠ []
      → headerRowAccepted Examples.header9)
     ∧ (¬ headerRowAccepted Examples.header9
        → Examples.parse (sheet Examples.header9 [JArr Examples.acmeRow]) = [])).
Proof.
  split; [reflexivity|].
  apply (@header_required_set exampleFormats
           [("majorDimension", JStr "ROWS");
            ("values", JArr [Examples.header9; JArr Examples.acmeRow])]
           Examples.header9 [JArr Examples.acmeRow]).
  reflexivity.
Defined.

(** C4, counterexample (scenario F): in the accepted table of the Acme
    and Globex rows, putting a nested object into the Acme row empties
    the output, so the Globex listing no longer appears. *)
Lemma row_independence_as_specified_fails :
  ¬ RowIndependenceAsSpecified exampleFormats.
Proof.
  intros Hclaim.
  destruct (Hclaim Examples.header9 [] [JArr Examples.globexRow]
              (JArr Examples.acmeRow) (JArr (<[5 := JObj []]> Examples.acmeRow))
              (JArr Examples.globexRow) Examples.globexListing) as [_ [Hin _]].
  - vm_compute. eexists. reflexivity.
  - apply list_elem_of_here.
  - assert (@rowOutput exampleFormats Examples.header9 (JArr Examples.globexRow)
            = [Examples.globexListing]) as -> by (vm_compute; reflexivity).
    apply list_elem_of_here.
  - assert (@JobListingJson.parseJobListings exampleFormats
              (sheet Examples.header9
                 ([] ++ JArr Examples.acmeRow :: [JArr Examples.globexRow]))
            = [Examples.acmeListing; Examples.globexListing]) as Hbefore
      by (vm_compute; reflexivity).
    assert (@JobListingJson.parseJobListings exampleFormats
              (sheet Examples.header9
                 ([] ++ JArr (<[5 := JObj []]> Examples.acmeRow)
                     :: [JArr Examples.globexRow]))
            = []) as Hafter by (vm_compute; reflexivity).
    rewrite Hbefore, Hafter in Hin.
    specialize (Hin ltac:(apply list_elem_of_further, list_elem_of_here)).
    by apply elem_of_nil in Hin.
Qed.

(** C4, instance: the bad-URL row between the Acme and Globex rows,
    replaced by a second Acme row. *)
Lemma row_independence_witness :
  Forall envelopeRow
    ([JArr Examples.acmeRow] ++ JArr Examples.badUrlRow :: [JArr Examples.globexRow])
  ∧ envelopeRow (JArr Examples.acmeRow)
  ∧ (Examples.parse
       (sheet Examples.header9
          ([JArr Examples.acmeRow] ++ JArr Examples.badUrlRow
             :: [JArr Examples.globexRow]))
     = ([JArr Examples.acmeRow] ≫= @rowOutput exampleFormats Examples.header9)
         ++ @rowOutput exampleFormats Examples.header9 (JArr Examples.badUrlRow)
         ++ ([JArr Examples.globexRow] ≫= @rowOutput exampleFormats Examples.header9)
     ∧ Examples.parse
         (sheet Examples.header9
            ([JArr Examples.acmeRow] ++ JArr Examples.acmeRow
               :: [JArr Examples.globexRow]))
       = ([JArr Examples.acmeRow] ≫= @rowOutput exampleFormats Examples.header9)
           ++ @rowOutput exampleFormats Examples.header9 (JArr Examples.acmeRow)
           ++ ([JArr Examples.globexRow] ≫= @rowOutput exampleFormats Examples.header9)
     ∧ Examples.parse
         (sheet Examples.header9 ([JArr Examples.acmeRow] ++ [JArr Examples.globexRow]))
       = ([JArr Examples.acmeRow] ≫= @rowOutput exampleFormats Examples.header9)
           ++ ([JArr Examples.globexRow] ≫= @rowOutput exampleFormats Examples.header9)).
Proof.
  assert (Forall envelopeRow
            ([JArr Examples.acmeRow] ++ JArr Examples.badUrlRow
               :: [JArr Examples.globexRow])) as Hrows
    by (repeat constructor).
  assert (envelopeRow (JArr Examples.acmeRow)) as Hrow by reflexivity.
  split; [exact Hrows|]. split; [exact Hrow|].
  exact (@row_independence exampleFormats Examples.header9
           [JArr Examples.acmeRow] [JArr Examples.globexRow]
           (JArr Examples.badUrlRow) (JArr Examples.acmeRow) Hrows Hrow).
Defined.

(** C5, counterexample: under a header whose ninth column is named by
    the empty string, a row of ten cells validates, and its listing maps
    the empty name to the tenth cell, not to the cell of that column. *)
Lemma extra_columns_as_specified_fails : ¬ ExtraColumnsAsSpecified exampleFormats.
Proof.
  intros Hclaim.
  pose proof (Hclaim
    (sheet (headerJs Examples.headerEmptyName) [rowToJs Examples.overflowCells])
    (JobListingJson.splitRows
       [CStr <$> Examples.headerEmptyName; Examples.overflowCells])
    (mkApiData Examples.headerEmptyName [Examples.overflowCells])
    Examples.overflowCells Examples.overflowListing 8 "" (CStr "a")) as Hcell.
  assert (extraFields Examples.overflowListing !! "" = Some (CStr "a")) as Hbad.
  { apply Hcell; try (vm_compute; reflexivity). apply list_elem_of_here. }
  vm_compute in Hbad. discriminate.
Qed.

(** The other exception of C5: a ninth column named ["__proto__"] leaves
    no entry in [extraFields]. *)
Example proto_column_not_stored :
  Examples.parse
    (sheet (headerJs (requiredFields ++ ["__proto__"])) [JArr Examples.acmeRow])
  = [Examples.acmeListing8].
Proof. vm_compute. reflexivity. Qed.

(** C5, instance: the ["source"] column of the happy path. *)
Lemma extra_columns_covered_witness :
  JobListingJson.initialResponseProcessor
    (sheet Examples.header9 [JArr Examples.acmeRow])
  = Some (JobListingJson.splitRows
            [CStr <$> requiredFields ++ ["source"]; Examples.acmeCells])
  ∧ apiDataValidator
      (JobListingJson.splitRows
         [CStr <$> requiredFields ++ ["source"]; Examples.acmeCells])
    = Some (mkApiData (requiredFields ++ ["source"]) [Examples.acmeCells])
  ∧ Examples.acmeCells ∈ [Examples.acmeCells]
  ∧ @jobListingValidator exampleFormats
      (rowToRecord (requiredFields ++ ["source"]) Examples.acmeCells)
    = Some Examples.acmeListing
  ∧ (requiredFields ++ ["source"]) !! 8%nat = Some "source"
  ∧ isRequiredField "source" = false
  ∧ Examples.acmeCells !! 8%nat = Some (CStr "LinkedIn")
  ∧ "source" ≠ "__proto__"
  ∧ ("source" ≠ ""
     ∨ (length Examples.acmeCells ≤ length (requiredFields ++ ["source"]))%nat)
  ∧ (Examples.acmeListing
       ∈ Examples.parse (sheet Examples.header9 [JArr Examples.acmeRow])
     ∧ extraFields Examples.acmeListing !! "source" = Some (CStr "LinkedIn")).
Proof.
  assert ("source" ≠ "__proto__") as Hproto by discriminate.
  assert ("source" ≠ ""
          ∨ (length Examples.acmeCells ≤ length (requiredFields ++ ["source"]))%nat)
    as Hside by (left; discriminate).
  assert (Examples.acmeCells ∈ [Examples.acmeCells]) as Hin
    by apply list_elem_of_here.
  split; [vm_compute; reflexivity|]. split; [vm_compute; reflexivity|].
  split; [exact Hin|]. split; [vm_compute; reflexivity|].
  split; [reflexivity|]. split; [reflexivity|]. split; [reflexivity|].
  split; [exact Hproto|]. split; [exact Hside|].
  apply (@extra_columns_covered exampleFormats
           (sheet Examples.header9 [JArr Examples.acmeRow])
           (JobListingJson.splitRows
              [CStr <$> requiredFields ++ ["source"]; Examples.acmeCells])
           (mkApiData (requiredFields ++ ["source"]) [Examples.acmeCells])
           Examples.acmeCells Examples.acmeListing 8 "source" (CStr "LinkedIn"));
    try (vm_compute; reflexivity); assumption.
Defined.

(** C7, counterexample: under the header of the 8 required fields, a row
    of seven cells next to the valid Acme row empties the output. *)
Lemma short_row_as_specified_fails : ¬ ShortRowAsSpecified exampleFormats.
Proof.
  intros Hclaim.
  pose proof (Hclaim requiredFields Examples.sevenCells
                [rowToJs Examples.acmeCells8] []) as Heq.
  assert (@JobListingJson.parseJobListings exampleFormats
            (sheet (headerJs requiredFields)
               ([rowToJs Examples.acmeCells8] ++ rowToJs Examples.sevenCells :: []))
          = [Examples.acmeListing8] ++ [] ++ []) as Hbad.
  { rewrite Heq.
    - vm_compute. reflexivity.
    - apply headerAccepted_check. vm_compute. reflexivity.
    - discriminate.
    - repeat constructor.
    - simpl. lia.
    - repeat constructor. }
  vm_compute in Hbad. discriminate.
Qed.

(** C7, instance: the Acme row cut to 8 cells under the 9-column header,
    behind the full Acme row. *)
Lemma short_row_not_fatal_witness :
  headerAccepted (requiredFields ++ ["source"])
  ∧ rowAccepted Examples.acmeCells8
  ∧ (length Examples.acmeCells8 < length (requiredFields ++ ["source"]))%nat
  ∧ Forall envelopeRow ([JArr Examples.acmeRow] ++ [])
  ∧ (Examples.parse
       (sheet (headerJs (requiredFields ++ ["source"]))
          ([JArr Examples.acmeRow] ++ rowToJs Examples.acmeCells8 :: []))
     = ([JArr Examples.acmeRow]
          ≫= @rowOutput exampleFormats (headerJs (requiredFields ++ ["source"])))
         ++ option_list
              (@jobListingValidator exampleFormats
                 (rowToRecord (requiredFields ++ ["source"]) Examples.acmeCells8))
         ++ ([] ≫= @rowOutput exampleFormats (headerJs (requiredFields ++ ["source"])))
     ∧ ∀ c name, (length Examples.acmeCells8 ≤ c)%nat →
         (requiredFields ++ ["source"]) !! c = Some name →
         required (rowToRecord (requiredFields ++ ["source"]) Examples.acmeCells8)
           !! name = None
         ∧ partialExtraFields
             (rowToRecord (requiredFields ++ ["source"]) Examples.acmeCells8)
             !! name = None).
Proof.
  assert (headerAccepted (requiredFields ++ ["source"])) as Hhdr
    by (apply headerAccepted_check; vm_compute; reflexivity).
  assert (rowAccepted Examples.acmeCells8) as Hrow
    by (apply rowAccepted_check; vm_compute; reflexivity).
  assert (length Examples.acmeCells8 < length (requiredFields ++ ["source"]))%nat
    as Hshort by (simpl; lia).
  assert (Forall envelopeRow ([JArr Examples.acmeRow] ++ [])) as Hrows
    by (repeat constructor).
  split; [exact Hhdr|]. split; [exact Hrow|]. split; [exact Hshort|].
  split; [exact Hrows|].
  exact (@short_row_not_fatal exampleFormats (requiredFields ++ ["source"])
           Examples.acmeCells8 [JArr Examples.acmeRow] [] Hhdr Hrow Hshort Hrows).
Defined.

(** C8, instance (scenario C): the bad-URL row between the Acme and
    Globex rows. *)
Lemma invalid_row_dropped_witness :
  JobListingJson.initialResponseProcessor
    (sheet Examples.header9
       [JArr Examples.acmeRow; JArr Examples.badUrlRow; JArr Examples.globexRow])
  = Some (JobListingJson.splitRows
            [CStr <$> requiredFields ++ ["source"]; Examples.acmeCells;
             Examples.badUrlCells; Examples.globexCells])
  ∧ apiDataValidator
      (JobListingJson.splitRows
         [CStr <$> requiredFields ++ ["source"]; Examples.acmeCells;
          Examples.badUrlCells; Examples.globexCells])
    = Some (mkApiData (requiredFields ++ ["source"])
              ([Examples.acmeCells] ++ Examples.badUrlCells :: [Examples.globexCells]))
  ∧ @jobListingValidator exampleFormats
      (rowToRecord (requiredFields ++ ["source"]) Examples.badUrlCells) = None
  ∧ (Examples.parse
       (sheet Examples.header9
          [JArr Examples.acmeRow; JArr Examples.badUrlRow; JArr Examples.globexRow])
     = omap (@rowListing exampleFormats (requiredFields ++ ["source"]))
         [Examples.acmeCells]
       ++ omap (@rowListing exampleFormats (requiredFields ++ ["source"]))
            [Examples.globexCells]
     ∧ ∀ other l, other ∈ [Examples.acmeCells] ++ [Examples.globexCells] →
         @jobListingValidator exampleFormats
           (rowToRecord (requiredFields ++ ["source"]) other) = Some l →
         l ∈ Examples.parse
               (sheet Examples.header9
                  [JArr Examples.acmeRow; JArr Examples.badUrlRow;
                   JArr Examples.globexRow])).
Proof.
  split; [vm_compute; reflexivity|]. split; [vm_compute; reflexivity|].
  split; [vm_compute; reflexivity|].
  apply (@invalid_row_dropped exampleFormats
           (sheet Examples.header9
              [JArr Examples.acmeRow; JArr Examples.badUrlRow;
               JArr Examples.globexRow])
           (JobListingJson.splitRows
              [CStr <$> requiredFields ++ ["source"]; Examples.acmeCells;
               Examples.badUrlCells; Examples.globexCells])
           (requiredFields ++ ["source"])
           [Examples.acmeCells] [Examples.globexCells] Examples.badUrlCells);
    vm_compute; reflexivity.
Defined.

(** C9, instance: a response in another column order parses to the Acme
    and Globex listings, which re-serialize to the sheet of scenario A
    extended by the Globex row; that sheet parses to the same listings. *)
Lemma reparse_reserialized_witness :
  toSheet ["source"] (Examples.parse Examples.shuffledResponse)
  = Some (sheet Examples.header9 [JArr Examples.acmeRow; JArr Examples.globexRow])
  ∧ Examples.parse
      (sheet Examples.header9 [JArr Examples.acmeRow; JArr Examples.globexRow])
    = Examples.parse Examples.shuffledResponse.
Proof.
  assert (toSheet ["source"] (Examples.parse Examples.shuffledResponse)
          = Some (sheet Examples.header9
                    [JArr Examples.acmeRow; JArr Examples.globexRow])) as Hsheet
    by (vm_compute; reflexivity).
  split; [exact Hsheet|].
  exact (proj2 (@reparse_reserialized exampleFormats Examples.shuffledResponse)
           ["source"]
           (sheet Examples.header9 [JArr Examples.acmeRow; JArr Examples.globexRow])
           Hsheet).
Defined.

(** Listings with different sets of extra fields re-serialize as well:
    the row of the listing without a ["source"] is one cell shorter. *)
Example reserialize_short_row :
  toSheet ["source"] [Examples.acmeListing; Examples.acmeListing8]
  = Some (sheet Examples.header9
            [JArr Examples.acmeRow; rowToJs Examples.acmeCells8]).
Proof. vm_compute. reflexivity. Qed.

(** C10, failing input: on the pre-split happy path the newer variant
    returns the Acme listing with [extraFields = { source: "LinkedIn" }]
    and the older variant returns it with [extraFields = {}], as its
    loop stores a cell outside the required columns only under a column
    named ["extraFields"]. *)
Theorem presplit_variants_differ :
  @PreSplit.parseJobListings exampleFormats Examples.preSplitAcme
  = [Examples.acmeListing]
  ∧ @HelpersTs.parseJobListings exampleFormats Examples.preSplitAcme
    = [Examples.acmeListing8]
  ∧ @PreSplit.parseJobListings exampleFormats Examples.preSplitAcme
    ≠ @HelpersTs.parseJobListings exampleFormats Examples.preSplitAcme.
Proof.
  assert (@PreSplit.parseJobListings exampleFormats Examples.preSplitAcme
          = [Examples.acmeListing]) as Hnew by (vm_compute; reflexivity).
  assert (@HelpersTs.parseJobListings exampleFormats Examples.preSplitAcme
          = [Examples.acmeListing8]) as Hold by (vm_compute; reflexivity).
  split; [exact Hnew|]. split; [exact Hold|].
  rewrite Hnew, Hold. intros Heq. apply (inj (.:: [])) in Heq.
  apply (f_equal (λ l, extraFields l !! "source")) in Heq.
  vm_compute in Heq. discriminate.
Qed.

(** * More of the helpers *)

(** ** [sheetsApi] and the pipeline on top of it *)

Lemma sheetsRowValidator_Some v row :
  Zod.parseArray SheetsApi.jsonSheetRowValidator v = Some row ↔
  v = rowToJs row ∧ (1 ≤ length row)%nat ∧ Forall (λ c, validCell c = true) row.
Proof.
  rewrite parseArray_Some. simpl. unfold rowToJs. split.
  - intros (items & -> & [-> Hrow]%Forall2_cellToJs & Hlen). auto.
  - intros (-> & Hlen & Hrow). eexists. split; [done|]. split; [|done].
    by apply Forall2_cellToJs.
Qed.

Lemma sheetsRowValidator_is_Some v :
  is_Some (Zod.parseArray SheetsApi.jsonSheetRowValidator v) ↔
  nonEmptyScalarRowJs v = true.
Proof.
  unfold nonEmptyScalarRowJs. split.
  - intros [row (-> & Hlen & Hrow)%sheetsRowValidator_Some].
    unfold scalarRowJs, rowToJs. rewrite length_fmap.
    apply andb_true_iff. split; [by apply bool_decide_eq_true|].
    apply forallb_forall. intros x [c [-> Hc]]%list_elem_of_In%list_elem_of_fmap.
    rewrite Forall_forall in Hrow. specialize (Hrow c Hc). by destruct c.
  - intros Hv. destruct v; simpl in Hv; try discriminate.
    apply andb_true_iff in Hv as [Hlen Hcells].
    apply bool_decide_eq_true in Hlen.
    assert (is_Some (mapM jsonSheetCellValidator items)) as [row Hrow].
    { apply mapM_is_Some. apply Forall_forall. intros x Hx. simpl.
      apply cellValidator_is_Some.
      rewrite forallb_forall in Hcells. by apply Hcells, list_elem_of_In. }
    exists row. apply parseArray_Some. exists items. split; [done|].
    split; [by apply mapM_Some|]. simpl.
    apply length_mapM in Hrow. simpl in *. lia.
Qed.

Lemma Forall2_sheetsRow items table :
  Forall2 (λ item row, Zod.parseArray SheetsApi.jsonSheetRowValidator item = Some row)
    items table ↔
  items = rowToJs <$> table
  ∧ Forall (λ row, (1 ≤ length row)%nat ∧ Forall (λ c, validCell c = true) row) table.
Proof.
  split.
  - induction 1 as [|item row items table (-> & ? & ?)%sheetsRowValidator_Some _
                      [-> IH]]; simpl; auto.
  - intros [-> Htable]. induction Htable as [|row table [? ?] _ IH];
      simpl; constructor; auto.
    by apply sheetsRowValidator_Some.
Qed.

(** [apiResponseValidator] keeps the range and the rows of an object
    tagged ["ROWS"] whose [values] hold at least one row, every row a
    non-empty array of scalars. *)
Lemma apiResponseValidator_Some v data :
  SheetsApi.apiResponseValidator v = Some data ↔
  ∃ props, v = JObj props
    ∧ getProp "range" props = JStr (SheetsApi.range data)
    ∧ getProp "majorDimension" props = JStr "ROWS"
    ∧ getProp "values" props = JArr (rowToJs <$> SheetsApi.values data)
    ∧ SheetsApi.values data ≠ []
    ∧ Forall (λ row, (1 ≤ length row)%nat ∧ Forall (λ c, validCell c = true) row)
        (SheetsApi.values data).
Proof.
  unfold SheetsApi.apiResponseValidator. split.
  - destruct v; try discriminate. intros Hv.
    apply bind_Some in Hv as (r & Hr & Hv).
    apply bind_Some in Hv as (lit & Hlit & Hv).
    apply bind_Some in Hv as (vs & Hvs & [= <-]). simpl.
    destruct (getProp "range" props) eqn:Hrange; try discriminate.
    injection Hr as ->.
    apply mk_is_Some, literal_ROWS in Hlit.
    apply parseArray_Some in Hvs as (items & Hitems & [-> Hacc]%Forall2_sheetsRow & Hlen).
    simpl in Hlen. exists props. split_and!; try done.
    intros ->. simpl in Hlen. lia.
  - intros (props & -> & Hrange & Hdim & Hvalues & Hne & Hacc).
    rewrite Hrange, Hdim, Hvalues.
    assert (Zod.parseArray
              (Zod.nonempty (Zod.array (Zod.parseArray SheetsApi.jsonSheetRowValidator)))
              (JArr (rowToJs <$> SheetsApi.values data))
            = Some (SheetsApi.values data)) as ->.
    { apply parseArray_Some. eexists. split; [done|].
      split; [by apply Forall2_sheetsRow|]. simpl.
      destruct (SheetsApi.values data); [done|simpl; lia]. }
    by destruct data.
Qed.

Lemma apiResponseValidator_accepts v :
  is_Some (SheetsApi.apiResponseValidator v) ↔ responseAccepted v = true.
Proof.
  split.
  - intros [data Hdata]. apply apiResponseValidator_Some in Hdata
      as (props & -> & Hrange & Hdim & Hvalues & Hne & Hacc).
    unfold responseAccepted. rewrite Hrange, Hdim, Hvalues.
    apply andb_true_iff. split; [apply andb_true_iff; split|].
    + by apply bool_decide_eq_true.
    + apply bool_decide_eq_true. rewrite length_fmap.
      destruct (SheetsApi.values data); [done|simpl; lia].
    + apply forallb_forall.
      intros r [row [-> Hrow]]%list_elem_of_In%list_elem_of_fmap.
      apply sheetsRowValidator_is_Some. exists row. apply sheetsRowValidator_Some.
      split; [done|]. rewrite Forall_forall in Hacc. by apply Hacc.
  - intros Hv. destruct v; simpl in Hv; try discriminate.
    destruct (getProp "range" props) as [| | | |r| | |] eqn:Hrange;
      try discriminate.
    destruct (getProp "majorDimension" props) as [| | | |dim| | |] eqn:Hdim;
      try discriminate.
    destruct (getProp "values" props) as [| | | | |items| |] eqn:Hvalues;
      try discriminate.
    apply andb_true_iff in Hv as [[Hrows Hlen]%andb_true_iff Hall].
    apply bool_decide_eq_true in Hrows as ->.
    apply bool_decide_eq_true in Hlen.
    assert (is_Some (mapM (Zod.parseArray SheetsApi.jsonSheetRowValidator) items))
      as [typed Htyped].
    { apply mapM_is_Some, Forall_forall. intros row Hrow. simpl.
      apply sheetsRowValidator_is_Some. rewrite forallb_forall in Hall.
      by apply Hall, list_elem_of_In. }
    apply mapM_Some, Forall2_sheetsRow in Htyped as [-> Hacc].
    rewrite length_fmap in Hlen.
    exists (SheetsApi.mkSheetsApiResponse r typed).
    apply apiResponseValidator_Some. exists props. simpl. split_and!; try done.
    intros ->. simpl in Hlen. lia.
Qed.

(** The row schema of [jobListings.ts] is the one of the pipeline. *)
Lemma jobListingRowValidator_eq v :
  JobListings.jobListingRowValidator v = apiDataValidator v.
Proof. reflexivity. Qed.

#[local] Instance JStr_inj : Inj (=) (=) JStr.
Proof. by intros s1 s2 [= ->]. Qed.

Section SheetsPipeline.
Context {formats : StringFormats}.

(** Only the [range], [majorDimension] and [values] properties of the
    response are read. *)
Lemma sheetsParse_props props props' :
  getProp "range" props = getProp "range" props' →
  getProp "majorDimension" props = getProp "majorDimension" props' →
  getProp "values" props = getProp "values" props' →
  JobListings.parseJobListings (JObj props)
  = JobListings.parseJobListings (JObj props').
Proof.
  intros Hrange Hdim Hvalues.
  unfold JobListings.parseJobListings, JobListings.jobListingDataPipeline,
    JobListings.rowSplitTransformer, SheetsApi.apiResponseValidator.
  by rewrite Hrange, Hdim, Hvalues.
Qed.

(** The pipeline on top of [sheetsApi] succeeds exactly on an accepted
    response whose first row is an accepted header and whose other rows
    are accepted rows; there may be no other row. *)
Lemma sheetsPipeline_Some v out :
  JobListings.jobListingDataPipeline v = Some out ↔
  ∃ props range names table, v = JObj props
    ∧ getProp "range" props = JStr range
    ∧ getProp "majorDimension" props = JStr "ROWS"
    ∧ getProp "values" props = JArr (headerJs names :: (rowToJs <$> table))
    ∧ headerAccepted names
    ∧ Forall rowAccepted table
    ∧ out = omap (rowListing names) table.
Proof.
  unfold JobListings.jobListingDataPipeline, JobListings.jobListingTransformer,
    JobListings.rowSplitTransformer.
  split.
  - intros Hv. apply bind_Some in Hv as (d & Hd & Hv).
    apply bind_Some in Hd as (data & Hdata & [= <-]).
    apply bind_Some in Hv as (apiData & Hapi & [= <-]).
    apply apiResponseValidator_Some in Hdata
      as (props & -> & Hrange & Hdim & Hvalues & Hne & _).
    destruct (SheetsApi.values data) as [|hdr table]; [done|].
    rewrite jobListingRowValidator_eq in Hapi.
    apply apiDataValidator_splitRows in Hapi as (-> & Hhdr & Hrows & Htable).
    exists props, (SheetsApi.range data), (fields apiData), table.
    rewrite Hrows, validRecords_omap. rewrite fmap_cons in Hvalues.
    rewrite (proj2 (rowToJs_header _ _) eq_refl) in Hvalues. done.
  - intros (props & range & names & table & -> & Hrange & Hdim & Hvalues
            & Hhdr & Htable & ->).
    apply bind_Some. exists (JobListingJson.splitRows ((CStr <$> names) :: table)).
    split.
    + apply bind_Some.
      exists (SheetsApi.mkSheetsApiResponse range ((CStr <$> names) :: table)).
      split; [|done]. apply apiResponseValidator_Some. exists props. simpl.
      rewrite (proj2 (rowToJs_header _ _) eq_refl).
      split_and!; try done. constructor.
      * split; [rewrite length_fmap; destruct Hhdr as [Hlen _]; simpl in *; lia|].
        apply Forall_fmap, Forall_true. done.
      * eapply Forall_impl; [exact Htable|]. intros row [Hlen Hrow].
        split; [simpl in *; lia|done].
    + apply bind_Some. exists (mkApiData names table). split.
      * rewrite jobListingRowValidator_eq. by apply apiDataValidator_splitRows.
      * simpl. by rewrite validRecords_omap.
Qed.

(** Re-validating a validated response gives the same response: the
    validator keeps the three properties it reads and nothing else. *)
Theorem apiResponseValidator_idempotent (v : JsValue)
    (data : SheetsApi.SheetsApiResponse) :
  SheetsApi.apiResponseValidator v = Some data →
  SheetsApi.apiResponseValidator (SheetsApi.responseToJs data) = Some data.
Proof.
  intros (props & _ & _ & _ & _ & Hne & Hacc)%apiResponseValidator_Some.
  apply apiResponseValidator_Some. eexists. split; [done|]. by simpl.
Qed.

(** [parseJobListings] of [jobListings.ts] is the pipeline of
    [jobListingJson.ts] behind one more guard: on a response whose
    [range] is a string the two return the same listings, and on any
    other value the first returns the empty array. *)
Theorem sheets_parse_agrees (apiData : JsValue) :
  JobListings.parseJobListings apiData
  = if hasStringRange apiData
    then JobListingJson.parseJobListings apiData
    else [].
Proof.
  unfold JobListings.parseJobListings.
  destruct (JobListings.jobListingDataPipeline apiData) as [out|] eqn:Hout.
  - apply sheetsPipeline_Some in Hout
      as (props & range & names & table & -> & Hrange & Hdim & Hvalues
          & Hhdr & Htable & ->).
    simpl. rewrite Hrange.
    destruct (parseJobListings_cases (JObj props))
      as [[Hnone ->]|(props' & names' & table' & [= <-] & _ & Hv & _ & _ & _ & ->)].
    + destruct table as [|row table]; [done|]. exfalso.
      assert (is_Some (JobListingJson.jobListingDataPipeline (JObj props)))
        as [out Hout]; [|by rewrite Hout in Hnone].
      eexists. apply jobListingDataPipeline_Some.
      exists props, names, (row :: table). done.
    + rewrite Hvalues in Hv. injection Hv as Hnames Htables.
      apply (inj (fmap JStr)) in Hnames. apply (inj (fmap rowToJs)) in Htables.
      by subst.
  - destruct (hasStringRange apiData) eqn:Hrange; [|done].
    destruct (parseJobListings_cases apiData)
      as [[_ ->]|(props & names & table & -> & Hdim & Hv & Hhdr & Htable & _ & _)];
      [done|]. exfalso.
    simpl in Hrange. destruct (getProp "range" props) eqn:Hr; try discriminate.
    assert (is_Some (JobListings.jobListingDataPipeline (JObj props)))
      as [out Hout']; [|by rewrite Hout' in Hout].
    eexists. apply sheetsPipeline_Some. by exists props, s, names, table.
Qed.

(** [getJobListings] returns exactly when the fetch resolves to an [ok]
    response whose body parses as JSON and passes [apiResponseValidator],
    and then it returns what [parseJobListings] returns on that body:
    validating the response a second time changes nothing. *)
Theorem getJobListings_returns (fetched : Outcome Response)
    (listings : list JobListing) :
  Hooks.getJobListings fetched = Returns listings ↔
  ∃ response body, fetched = Returns response
    ∧ ok response = true
    ∧ json response = Returns body
    ∧ responseAccepted body = true
    ∧ listings = JobListings.parseJobListings body.
Proof.
  assert (∀ body data, SheetsApi.apiResponseValidator body = Some data →
            JobListings.parseJobListings (SheetsApi.responseToJs data)
            = JobListings.parseJobListings body) as Hparse.
  { intros body data Hdata.
    apply apiResponseValidator_Some in Hdata
      as (props & -> & Hrange & Hdim & Hvalues & _).
    apply sheetsParse_props; simpl; by rewrite ?Hrange, ?Hdim, ?Hvalues. }
  unfold Hooks.getJobListings, SheetsApi.getSpreadsheetData. split.
  - destruct fetched as [response|]; [|discriminate].
    destruct (ok response) eqn:Hok; [|discriminate]. simpl.
    destruct (json response) as [body|err] eqn:Hjson;
      [|by unfold SheetsApi.caught; destruct (SheetsApi.formatError err)].
    destruct (SheetsApi.apiResponseValidator body) as [data|] eqn:Hdata;
      [|discriminate].
    intros [= <-]. exists response, body. split_and!; try done.
    + apply apiResponseValidator_accepts. by rewrite Hdata.
    + by apply Hparse.
  - intros (response & body & -> & Hok & Hjson & Hacc & ->).
    rewrite Hok, Hjson. simpl.
    apply apiResponseValidator_accepts in Hacc as [data Hdata].
    rewrite Hdata. f_equal. by apply Hparse.
Qed.

End SheetsPipeline.

(** ** The pre-split variants against the pipeline *)

(** Every cell stored by the record builder is a cell of the row. *)
Lemma forEntries_extra_cells indices row index record (P : Cell → Prop) :
  map_Forall (λ _, P) (partialExtraFields record) → Forall P row →
  map_Forall (λ _, P)
    (partialExtraFields (forEntries (assignCell indices) index row record)).
Proof.
  revert index record. induction row as [|c row IH]; intros index record Hrec Hrow;
    simpl; [done|].
  apply Forall_cons in Hrow as [Hc Hrow]. apply IH; [|done].
  unfold assignCell. destruct (isRequiredField _).
  - by destruct c.
  - unfold setExtraField. destruct (decide _); [done|]. simpl.
    by apply map_Forall_insert_2.
Qed.

Lemma rowToRecord_extra_cells names row (P : Cell → Prop) :
  Forall P row → map_Forall (λ _, P) (partialExtraFields (rowToRecord names row)).
Proof. apply forEntries_extra_cells, map_Forall_empty. Qed.

(** The older loop body keeps the required properties of the newer one
    and, of its extra fields, the one under ["extraFields"]. *)
Lemma helpersTs_assignCell indices index cellValue older newer :
  required older = required newer →
  partialExtraFields older
  = filter (λ entry, entry.1 = "extraFields") (partialExtraFields newer) →
  required (HelpersTs.assignCell indices index cellValue older)
  = required (assignCell indices index cellValue newer)
  ∧ partialExtraFields (HelpersTs.assignCell indices index cellValue older)
    = filter (λ entry, entry.1 = "extraFields")
        (partialExtraFields (assignCell indices index cellValue newer)).
Proof.
  intros Hreq Hextra. unfold HelpersTs.assignCell, assignCell.
  assert (∀ key (c : Cell) (m : gmap string Cell), key ≠ "extraFields" →
            filter (λ entry : string * Cell, entry.1 = "extraFields") (<[key := c]> m)
            = filter (λ entry : string * Cell, entry.1 = "extraFields") m) as Hother.
  { intros key c m Hkey. by apply map_filter_insert_not. }
  destruct (indices !! index) as [key|]; simpl.
  - destruct (isRequiredField key) eqn:Hkey.
    + assert (key ≠ "extraFields") as Hne by (by intros ->).
      destruct cellValue; simpl; rewrite ?decide_False by done; try done.
      by rewrite Hreq.
    + unfold setExtraField.
      destruct (decide (key = "extraFields")) as [->|Hne].
      * rewrite decide_False by done.
        destruct cellValue; simpl; (split; [done|]);
          by rewrite map_filter_insert_True, Hextra.
      * destruct (decide (key = "__proto__")); destruct cellValue; simpl;
          rewrite ?Hother by done; done.
  - rewrite isRequiredField_empty. unfold setExtraField.
    rewrite decide_False by done. simpl.
    rewrite Hother by done. by destruct cellValue.
Qed.

Lemma helpersTs_forEntries indices row index older newer :
  required older = required newer →
  partialExtraFields older
  = filter (λ entry, entry.1 = "extraFields") (partialExtraFields newer) →
  required (forEntries (HelpersTs.assignCell indices) index row older)
  = required (forEntries (assignCell indices) index row newer)
  ∧ partialExtraFields (forEntries (HelpersTs.assignCell indices) index row older)
    = filter (λ entry, entry.1 = "extraFields")
        (partialExtraFields (forEntries (assignCell indices) index row newer)).
Proof.
  revert index older newer. induction row as [|c row IH];
    intros index older newer Hreq Hextra; simpl; [done|].
  destruct (helpersTs_assignCell indices index c older newer Hreq Hextra).
  by apply IH.
Qed.

Section Variants2.
Context {formats : StringFormats}.

Lemma preSplit_parse v :
  PreSplit.parseJobListings v
  = match apiDataValidator v with
    | Some apiData => omap (rowListing (fields apiData)) (rows apiData)
    | None => []
    end.
Proof.
  unfold PreSplit.parseJobListings, PreSplit.recordsTransformer.
  destruct (apiDataValidator v) as [apiData|]; [|done]. simpl.
  apply validRecords_omap.
Qed.

(** Splitting the table by hand and calling the pre-split variant gives
    what the pipeline gives on the response, for every header and every
    list of data rows. *)
Theorem presplit_agrees_with_pipeline (header : JsValue) (dataRows : list JsValue) :
  PreSplit.parseJobListings (preSplit header dataRows)
  = JobListingJson.parseJobListings (sheet header dataRows).
Proof.
  rewrite preSplit_parse.
  destruct (apiDataValidator (preSplit header dataRows)) as [apiData|] eqn:Hapi.
  - apply apiDataValidator_Some in Hapi
      as (props & [= <-] & Hfs & Hhdr & Hrs & Hrows).
    simpl in Hfs, Hrs. injection Hrs as ->. subst header.
    by rewrite parseJobListings_sheet.
  - destruct (parseJobListings_cases (sheet header dataRows))
      as [[_ ->]|(props & names & table & [= <-] & _ & Hv & Hhdr & Htable & _)];
      [done|]. exfalso.
    injection Hv as -> ->.
    assert (is_Some (apiDataValidator
                       (preSplit (headerJs names) (rowToJs <$> table))))
      as [a Ha]; [|by rewrite Ha in Hapi].
    exists (mkApiData names table). apply apiDataValidator_Some.
    eexists. split; [done|]. by simpl.
Qed.

Lemma recordOfCells_valid (m : gmap string Cell) :
  map_Forall (λ _ c, validCell c = true) m → recordOfCells m = Some m.
Proof. intros Hm. by apply recordOfCells_Some. Qed.

(** A validated row validates in the older variant exactly when it does
    in the newer one, and to the same listing up to the extra fields. *)
Lemma helpersTs_rowListing names row :
  Forall (λ c, validCell c = true) row →
  jobListingValidator (HelpersTs.rowToRecord names row)
  = keepExtraFieldsColumn <$> rowListing names row.
Proof.
  intros Hrow. unfold rowListing.
  destruct (helpersTs_forEntries (fieldIndices names) row 0 emptyRecord emptyRecord)
    as [Hreq Hextra]; [done|simpl; by rewrite map_filter_empty|].
  fold (HelpersTs.rowToRecord names row) in Hreq, Hextra.
  fold (rowToRecord names row) in Hreq, Hextra.
  pose proof (rowToRecord_extra_cells names row _ Hrow) as Hvalid.
  unfold jobListingValidator. rewrite Hreq, Hextra.
  rewrite (recordOfCells_valid (partialExtraFields (rowToRecord names row)))
    by done.
  rewrite (recordOfCells_valid
             (filter (λ entry, entry.1 = "extraFields")
                (partialExtraFields (rowToRecord names row)))).
  2:{ intros k c [Hk _]%map_lookup_filter_Some. by apply (Hvalid k). }
  destruct (Zod.stringMin 1 (required (rowToRecord names row) !! "company"));
    simpl; [|done].
  destruct (Zod.stringMin 1 (required (rowToRecord names row) !! "jobTitle"));
    simpl; [|done].
  destruct (Zod.stringMin 1 (required (rowToRecord names row) !! "appStatus"));
    simpl; [|done].
  destruct (datetimeString (required (rowToRecord names row) !! "dateSubmitted"));
    simpl; [|done].
  destruct (datetimeString (required (rowToRecord names row) !! "dateLastModified"));
    simpl; [|done].
  destruct (required (rowToRecord names row) !! "location"); simpl; [|done].
  destruct (required (rowToRecord names row) !! "notes"); simpl; [|done].
  by destruct (urlOrEmpty (required (rowToRecord names row) !! "url")).
Qed.

(** The older pre-split variant returns the listings of the newer one,
    in the same order and with the same required fields; of the extra
    fields it keeps only the one of a column named ["extraFields"]. *)
Theorem helpersTs_keeps_extraFields_column (apiData : JsValue) :
  HelpersTs.parseJobListings apiData
  = keepExtraFieldsColumn <$> PreSplit.parseJobListings apiData.
Proof.
  rewrite preSplit_parse.
  unfold HelpersTs.parseJobListings, HelpersTs.recordsTransformer.
  destruct (apiDataValidator apiData) as [parsed|] eqn:Hapi; [|done]. simpl.
  apply apiDataValidator_Some in Hapi as (_ & _ & _ & _ & _ & Hrows).
  unfold validRecords.
  induction Hrows as [|row table [_ Hrow] _ IH]; [done|].
  rewrite fmap_cons, bind_cons, IH, helpersTs_rowListing by done.
  cbn [omap list_omap]. by destruct (rowListing (fields parsed) row).
Qed.

End Variants2.

(** ** What the record builder stores, column by column *)

Lemma assignCell_required_is_Some names index cellValue record k :
  is_Some (required (assignCell (fieldIndices names) index cellValue record) !! k) ↔
  is_Some (required record !! k)
  ∨ (keyAt names index = k ∧ isRequiredField k = true ∧ ∃ s, cellValue = CStr s).
Proof.
  unfold assignCell. fold (keyAt names index).
  destruct (isRequiredField (keyAt names index)) eqn:Hreq.
  - destruct cellValue; simpl.
    + rewrite lookup_insert_is_Some'. split.
      * intros [<-|?]; [right; eauto|by left].
      * intros [?|(<- & _)]; [by right|by left].
    + split; [by left|]. by intros [?|(_ & _ & s & ?)].
    + split; [by left|]. by intros [?|(_ & _ & s & ?)].
  - assert (required (setExtraField (keyAt names index) cellValue record)
            = required record) as ->.
    { unfold setExtraField. by destruct (decide _). }
    split; [by left|]. intros [?|(<- & ? & _)]; [done|congruence].
Qed.

(** The required properties set after the loop are the ones set before
    and the names of the visited required columns that hold text. *)
Lemma forEntries_required_is_Some names row index record k :
  is_Some (required (forEntries (assignCell (fieldIndices names)) index row record)
           !! k) ↔
  is_Some (required record !! k)
  ∨ ∃ j s, keyAt names (index + j) = k ∧ isRequiredField k = true
           ∧ row !! j = Some (CStr s).
Proof.
  revert index record. induction row as [|c row IH]; intros index record; simpl.
  - split; [by left|]. by intros [?|(j & s & _ & _ & ?)].
  - rewrite IH, assignCell_required_is_Some. split.
    + intros [[?|(Hkey & Hreq & s & ->)]|(j & s & Hkey & Hreq & Hj)].
      * by left.
      * right. exists 0%nat, s. by rewrite Nat.add_0_r.
      * right. exists (S j), s. by rewrite Nat.add_succ_r.
    + intros [?|(j & s & Hkey & Hreq & Hj)]; [by left; left|].
      destruct j as [|j]; simpl in Hj.
      * left. right. rewrite Nat.add_0_r in Hkey. injection Hj as ->. eauto.
      * right. exists j, s. by rewrite Nat.add_succ_r in Hkey.
Qed.

(** A required property of the record is the text cell of the column of
    that name. *)
Lemma rowToRecord_required_Some names row k s :
  NoDup names →
  required (rowToRecord names row) !! k = Some s ↔
  ∃ c, names !! c = Some k ∧ isRequiredField k = true ∧ row !! c = Some (CStr s).
Proof.
  intros Hnd. split.
  - intros Hk.
    assert (is_Some (required (rowToRecord names row) !! k)) as Hsome by eauto.
    apply forEntries_required_is_Some in Hsome
      as [[? Hempty]|(j & s' & Hkey & Hreq & Hj)].
    { simpl in Hempty. by rewrite lookup_empty in Hempty. }
    simpl in Hkey. rewrite keyAt_lookup in Hkey.
    destruct (names !! j) as [k'|] eqn:Hname; simpl in Hkey; subst k.
    + pose proof (rowToRecord_required names row j k' s' Hnd Hname Hreq Hj) as Hk'.
      rewrite Hk in Hk'. injection Hk' as ->. by exists j.
    + by rewrite isRequiredField_empty in Hreq.
  - intros (c & Hname & Hreq & Hcell). by eapply rowToRecord_required.
Qed.

(** An extra field of the record is the cell of the column of that name,
    in a row no longer than the header. *)
Lemma rowToRecord_extra_Some names row k cell :
  NoDup names → (length row ≤ length names)%nat →
  partialExtraFields (rowToRecord names row) !! k = Some cell ↔
  ∃ c, names !! c = Some k ∧ extraKeyOk k ∧ row !! c = Some cell.
Proof.
  intros Hnd Hlen. split.
  - intros Hk.
    assert (is_Some (partialExtraFields (rowToRecord names row) !! k)) as Hsome
      by eauto.
    apply rowToRecord_extra_is_Some in Hsome as (j & Hj & Hkey & Hok).
    destruct (lookup_lt_is_Some_2 names j ltac:(lia)) as [k' Hname].
    rewrite (keyAt_Some _ _ _ Hname) in Hkey. subst k'.
    destruct (lookup_lt_is_Some_2 row j Hj) as [cell' Hcell].
    destruct Hok as [Hreq Hproto].
    pose proof (rowToRecord_extra names row j k cell' Hnd Hname Hreq Hproto Hcell
                  (or_intror Hlen)) as Hk'.
    rewrite Hk in Hk'. injection Hk' as ->. by exists j.
  - intros (c & Hname & [Hreq Hproto] & Hcell).
    apply (rowToRecord_extra _ _ c); auto.
Qed.

(** Every extra field of the record is a cell of the row, under the key
    its column resolves to. *)
Lemma forEntries_extra_Some_inv names row index record k cell :
  partialExtraFields (forEntries (assignCell (fieldIndices names)) index row record)
    !! k = Some cell →
  partialExtraFields record !! k = Some cell
  ∨ ∃ j, keyAt names (index + j) = k ∧ row !! j = Some cell.
Proof.
  revert index record. induction row as [|c row IH]; intros index record; simpl;
    [by left|].
  intros [Hk|(j & Hkey & Hj)]%IH.
  - unfold assignCell in Hk. fold (keyAt names index) in Hk.
    destruct (isRequiredField (keyAt names index)).
    + left. by destruct c.
    + unfold setExtraField in Hk. destruct (decide _); [by left|]. simpl in Hk.
      apply lookup_insert_Some in Hk as [[<- <-]|[_ ?]]; [|by left].
      right. exists 0%nat. by rewrite Nat.add_0_r.
  - right. exists (S j). by rewrite Nat.add_succ_r.
Qed.

(** Membership of a given string in a given list, by evaluation. *)
Ltac in_list := by apply (bool_decide_unpack _).

Section RowCriteria.
Context {formats : StringFormats}.

Lemma requiredProperties_record record (l : JobListing) rf s :
  jobListingValidator record = Some l →
  requiredProperties l !! rf = Some s →
  required record !! rf = Some s.
Proof.
  intros (? & ? & ? & ? & ? & ? & ? & ? & _)%jobListingValidator_Some Hrf.
  unfold requiredProperties in Hrf. simpl in Hrf.
  repeat (apply lookup_insert_Some in Hrf as [[<- <-]|[_ Hrf]]; [done|]).
  by rewrite lookup_empty in Hrf.
Qed.

(** Nothing in a listing is made up: every listing of the output comes
    from one data row of the table, each of its required fields is the
    text cell of that row in the column of that name, and each of its
    extra fields is a cell of that row, in the column of that name or,
    under the empty name, in a column beyond the header. *)
Theorem listing_fields_come_from_row props (header : JsValue)
    (dataRows : list JsValue) (l : JobListing) :
  getProp "values" props = JArr (header :: dataRows) →
  l ∈ JobListingJson.parseJobListings (JObj props) →
  ∃ names cells,
    header = headerJs names
    ∧ rowToJs cells ∈ dataRows
    ∧ (∀ rf s, requiredProperties l !! rf = Some s →
         ∃ c, names !! c = Some rf ∧ cells !! c = Some (CStr s))
    ∧ (∀ k cell, extraFields l !! k = Some cell →
         ∃ c, cells !! c = Some cell
              ∧ (names !! c = Some k ∨ (k = "" ∧ length names ≤ c)%nat)).
Proof.
  intros Hvalues Hl.
  destruct (parseJobListings_cases (JObj props))
    as [[_ Hnil]|(props' & names & table & [= <-] & _ & Hv & Hhdr & _ & _ & Hout)].
  { rewrite Hnil in Hl. by apply elem_of_nil in Hl. }
  rewrite Hvalues in Hv. injection Hv as -> ->.
  rewrite Hout in Hl. apply list_elem_of_omap in Hl as (row & Hrow & Hlisting).
  exists names, row. split; [done|]. split; [by apply list_elem_of_fmap_2|].
  unfold rowListing in Hlisting. destruct Hhdr as (_ & Hnd & _). split.
  - intros rf s Hrf.
    pose proof (requiredProperties_record _ _ _ _ Hlisting Hrf) as Hrec.
    apply rowToRecord_required_Some in Hrec as (c & ? & _ & ?); [|done].
    by exists c.
  - intros k cell Hk.
    apply jobListingValidator_Some in Hlisting
      as (_ & _ & _ & _ & _ & _ & _ & _ & Hextra & _).
    rewrite Hextra in Hk.
    apply forEntries_extra_Some_inv in Hk as [Hk|(c & Hkey & Hcell)].
    { simpl in Hk. by rewrite lookup_empty in Hk. }
    exists c. split; [done|]. simpl in Hkey. rewrite keyAt_lookup in Hkey.
    destruct (names !! c) as [k'|] eqn:Hname; simpl in Hkey; subst k.
    + by left.
    + right. split; [done|]. by apply lookup_ge_None.
Qed.

Lemma fieldAccepts_nonempty rf s :
  rf ∈ ["company"; "jobTitle"; "appStatus"] →
  fieldAccepts rf s = bool_decide (1 ≤ String.length s)%nat.
Proof. intros Hrf. unfold fieldAccepts. by rewrite bool_decide_true. Qed.

Lemma fieldAccepts_datetime rf s :
  rf ∈ ["dateSubmitted"; "dateLastModified"] →
  fieldAccepts rf s = isDatetime s.
Proof.
  intros Hrf. apply elem_of_cons in Hrf as [->|Hrf]; [done|].
  by apply list_elem_of_singleton in Hrf as ->.
Qed.

Lemma fieldAccepts_url s :
  fieldAccepts "url" s = bool_decide (s = "") || isUrl s.
Proof. reflexivity. Qed.

(** A validated row under an accepted header yields a listing if and
    only if, for each of the 8 required fields, its cell in the column
    of that name is there, is text, and meets the constraint of the
    field.  A number or a boolean in a required column drops the row. *)
Theorem row_yields_listing_iff (names : list string) (row : list Cell) :
  headerAccepted names → Forall (λ c, validCell c = true) row →
  is_Some (jobListingValidator (rowToRecord names row)) ↔
  ∀ rf, rf ∈ requiredFields →
    ∃ c s, names !! c = Some rf ∧ row !! c = Some (CStr s)
           ∧ fieldAccepts rf s = true.
Proof.
  intros (_ & Hnd & _) Hrow. split.
  - intros [l Hl] rf Hrf.
    pose proof Hl as
      (Hc & Hj & Hlo & Ha & Hu & Hno & Hds & Hdm & _
       & (? & ? & ? & ? & ? & Hurl & _))%jobListingValidator_Some.
    assert (∀ k s, k ∈ requiredFields →
              required (rowToRecord names row) !! k = Some s →
              fieldAccepts k s = true →
              ∃ c s, names !! c = Some k ∧ row !! c = Some (CStr s)
                     ∧ fieldAccepts k s = true) as Hfield.
    { intros k s _ (c & ? & _ & ?)%rowToRecord_required_Some ?; [|done].
      by exists c, s. }
    unfold requiredFields in Hrf.
    apply elem_of_cons in Hrf as [->|Hrf].
    { eapply Hfield; [in_list|eassumption|].
      rewrite fieldAccepts_nonempty by in_list. by apply bool_decide_eq_true. }
    apply elem_of_cons in Hrf as [->|Hrf].
    { eapply Hfield; [in_list|eassumption|].
      rewrite fieldAccepts_nonempty by in_list. by apply bool_decide_eq_true. }
    apply elem_of_cons in Hrf as [->|Hrf].
    { eapply Hfield; [in_list|eassumption|done]. }
    apply elem_of_cons in Hrf as [->|Hrf].
    { eapply Hfield; [in_list|eassumption|].
      rewrite fieldAccepts_nonempty by in_list. by apply bool_decide_eq_true. }
    apply elem_of_cons in Hrf as [->|Hrf].
    { eapply Hfield; [in_list|eassumption|].
      rewrite fieldAccepts_url. apply orb_true_iff.
      destruct Hurl as [->|?]; [left; by apply bool_decide_eq_true|by right]. }
    apply elem_of_cons in Hrf as [->|Hrf].
    { eapply Hfield; [in_list|eassumption|done]. }
    apply elem_of_cons in Hrf as [->|Hrf].
    { eapply Hfield; [in_list|eassumption|].
      by rewrite fieldAccepts_datetime by in_list. }
    apply list_elem_of_singleton in Hrf as ->.
    eapply Hfield; [in_list|eassumption|].
    by rewrite fieldAccepts_datetime by in_list.
  - intros Hall.
    assert (∀ k, k ∈ requiredFields →
              ∃ s, required (rowToRecord names row) !! k = Some s
                   ∧ fieldAccepts k s = true) as Hfield.
    { intros k Hk. destruct (Hall k Hk) as (c & s & Hname & Hcell & Hacc).
      exists s. split; [|done].
      apply rowToRecord_required_Some; [done|]. exists c. split; [done|].
      split; [|done]. by apply isRequiredField_requiredFields. }
    destruct (Hfield "company") as (c & Hc & Hc'); [in_list|].
    destruct (Hfield "jobTitle") as (j & Hj & Hj'); [in_list|].
    destruct (Hfield "location") as (lo & Hlo & _); [in_list|].
    destruct (Hfield "appStatus") as (a & Ha & Ha'); [in_list|].
    destruct (Hfield "url") as (u & Hu & Hu'); [in_list|].
    destruct (Hfield "notes") as (no & Hno & _); [in_list|].
    destruct (Hfield "dateSubmitted") as (ds & Hds & Hds'); [in_list|].
    destruct (Hfield "dateLastModified") as (dm & Hdm & Hdm'); [in_list|].
    exists (mkJobListing c j a ds dm (partialExtraFields (rowToRecord names row))
              lo no u).
    apply jobListingValidator_Some. simpl. split_and!; try done.
    unfold wfJobListing. simpl. split_and!.
    + rewrite fieldAccepts_nonempty in Hc' by in_list.
      by apply bool_decide_eq_true in Hc'.
    + rewrite fieldAccepts_nonempty in Hj' by in_list.
      by apply bool_decide_eq_true in Hj'.
    + rewrite fieldAccepts_nonempty in Ha' by in_list.
      by apply bool_decide_eq_true in Ha'.
    + by rewrite fieldAccepts_datetime in Hds' by in_list.
    + by rewrite fieldAccepts_datetime in Hdm' by in_list.
    + rewrite fieldAccepts_url in Hu'. apply orb_true_iff in Hu' as [Hu'|?].
      * left. by apply bool_decide_eq_true in Hu'.
      * by right.
    + by apply rowToRecord_extra_cells.
Qed.

End RowCriteria.

(** ** What [getJobListings] throws *)

Section HookErrors.
Context {formats : StringFormats}.

(** [getJobListings] throws in exactly six ways: the rejection of the
    fetch, as it is; the error of [getSpreadsheetData] on a response that
    is not [ok]; the [Error] that reading the body threw, as it is; a
    new [Error] around the text of what reading the body threw, when
    that was no [Error] and converts to a string; what the conversion
    itself threw, when it does not; and the validator's error on a body
    that [apiResponseValidator] refuses.  A refused body is never
    parsed. *)
Theorem getJobListings_throws (fetched : Outcome Response) (e : Exception) :
  Hooks.getJobListings fetched = Throws e ↔
  fetched = Throws e
  ∨ ∃ response, fetched = Returns response
      ∧ ((ok response = false
          ∧ e = ExnError (ErrorMessage "Error during GET request."))
         ∨ (ok response = true
            ∧ ((∃ error, json response = Throws (ExnError error)
                         ∧ e = ExnError error)
               ∨ (∃ v text, json response = Throws (ExnValue v text)
                            ∧ e = ExnError (ErrorMessage
                                              ("Non-error " +:+ text +:+ " thrown")))
               ∨ (∃ v, json response = Throws (ExnUnprintable v e))
               ∨ (∃ body, json response = Returns body
                          ∧ responseAccepted body = false
                          ∧ e = ExnError ZodError)))).
Proof.
  unfold Hooks.getJobListings, SheetsApi.getSpreadsheetData, SheetsApi.caught.
  split.
  - destruct fetched as [response|e']; [|intros [= ->]; by left].
    intros Hthrows. right. exists response. split; [done|].
    destruct (ok response); simpl in *; [right|left; split; congruence].
    split; [done|]. revert Hthrows.
    destruct (json response) as [body|[error|v text|v raised]]; simpl.
    + intros Hthrows. do 3 right. exists body. split; [done|].
      destruct (SheetsApi.apiResponseValidator body) as [data|] eqn:Hdata;
        [discriminate|].
      split; [|simpl in Hthrows; congruence].
      destruct (responseAccepted body) eqn:Hacc; [|done].
      apply apiResponseValidator_accepts in Hacc as [data Hdata'].
      congruence.
    + intros [= <-]. left. by exists error.
    + intros [= <-]. right. left. by exists v, text.
    + intros [= <-]. do 2 right. left. by exists v.
  - intros [->|(response & -> & [[Hok ->]|[Hok Hjson]])];
      [done|by rewrite Hok|]. rewrite Hok. simpl.
    destruct Hjson as [(error & -> & ->)|[(v & text & -> & ->)
                      |[(v & ->)|(body & -> & Hacc & ->)]]]; try done.
    destruct (SheetsApi.apiResponseValidator body) as [data|] eqn:Hdata; [|done].
    assert (responseAccepted body = true) as Hyes
      by (apply apiResponseValidator_accepts; by rewrite Hdata).
    congruence.
Qed.

End HookErrors.

(** A body whose reading rejects with a symbol: the template literal of
    the [catch] block throws, and that [TypeError] is what the caller of
    [getJobListings] gets; a rejection with the string ["boom"] comes
    out wrapped. *)
Example getJobListings_rejected_body :
  @Hooks.getJobListings exampleFormats
    (Returns (mkResponse true
                (Throws (ExnUnprintable JOther
                           (ExnError (TypeError
                              "Cannot convert a Symbol value to a string"))))))
  = Throws (ExnError (TypeError "Cannot convert a Symbol value to a string"))
  ∧ @Hooks.getJobListings exampleFormats
      (Returns (mkResponse true (Throws (ExnValue (JStr "boom") "boom"))))
    = Throws (ExnError (ErrorMessage "Non-error boom thrown")).
Proof. vm_compute. done. Qed.

(** ** The order of the columns *)

Lemma zip_elem_of_lookup {A B} (l : list A) (k : list B) (x : A) (y : B) :
  (x, y) ∈ zip l k ↔ ∃ i, l !! i = Some x ∧ k !! i = Some y.
Proof.
  rewrite list_elem_of_lookup. split.
  - intros [i Hi]. exists i.
    by apply lookup_zip_with_Some in Hi as (x' & y' & [= -> ->] & ? & ?).
  - intros (i & ? & ?). exists i. apply lookup_zip_with_Some. by exists x, y.
Qed.

Lemma sameColumns_names names row names' row' :
  sameColumns names row names' row' → names' ≡ₚ names.
Proof.
  intros (Hlen & Hlen' & Hperm).
  rewrite <- (fst_zip names row), <- (fst_zip names' row') by lia.
  by apply fmap_Permutation.
Qed.

Lemma sameColumns_cells names row names' row' :
  sameColumns names row names' row' → row' ≡ₚ row.
Proof.
  intros (Hlen & Hlen' & Hperm).
  rewrite <- (snd_zip names row), <- (snd_zip names' row') by lia.
  by apply fmap_Permutation.
Qed.

Lemma headerAccepted_Permutation names names' :
  names' ≡ₚ names → headerAccepted names → headerAccepted names'.
Proof.
  intros Hperm (Hlen & Hnd & Hall). split_and!.
  - by rewrite Hperm.
  - by rewrite Hperm.
  - intros rf Hrf. rewrite Hperm. by apply Hall.
Qed.

Lemma partialJobListing_eq (r r' : PartialJobListing) :
  required r = required r' → partialExtraFields r = partialExtraFields r' →
  r = r'.
Proof. destruct r, r'. simpl. by intros -> ->. Qed.

(** The record of a row depends on which cell stands under which name,
    not on where the column is. *)
Lemma rowToRecord_sameColumns names row names' row' :
  NoDup names → sameColumns names row names' row' →
  rowToRecord names' row' = rowToRecord names row.
Proof.
  intros Hnd Hsame.
  assert (NoDup names') as Hnd'
    by (by rewrite (sameColumns_names _ _ _ _ Hsame)).
  destruct Hsame as (Hlen & Hlen' & Hperm).
  assert (∀ k cell, (∃ c, names' !! c = Some k ∧ row' !! c = Some cell)
                    ↔ ∃ c, names !! c = Some k ∧ row !! c = Some cell) as Hcol.
  { intros k cell. rewrite <- !zip_elem_of_lookup. by rewrite Hperm. }
  apply partialJobListing_eq.
  - apply map_eq. intros k. apply option_eq. intros s.
    rewrite !rowToRecord_required_Some by done. split.
    + intros (c & Hname & Hreq & Hcell).
      destruct (proj1 (Hcol k (CStr s))) as (c' & ? & ?); [by exists c|].
      by exists c'.
    + intros (c & Hname & Hreq & Hcell).
      destruct (proj2 (Hcol k (CStr s))) as (c' & ? & ?); [by exists c|].
      by exists c'.
  - apply map_eq. intros k. apply option_eq. intros cell.
    rewrite !rowToRecord_extra_Some by (done || lia). split.
    + intros (c & Hname & Hok & Hcell).
      destruct (proj1 (Hcol k cell)) as (c' & ? & ?); [by exists c|].
      by exists c'.
    + intros (c & Hname & Hok & Hcell).
      destruct (proj2 (Hcol k cell)) as (c' & ? & ?); [by exists c|].
      by exists c'.
Qed.

Section ColumnOrder.
Context {formats : StringFormats}.

Lemma parseJobListings_no_rows (header : JsValue) :
  JobListingJson.parseJobListings (sheet header []) = [].
Proof.
  destruct (parseJobListings_cases (sheet header []))
    as [[_ ->]|(props & names & table & [= <-] & _ & Hv & _ & _ & Hne & _)];
    [done|].
  injection Hv as _ Hrows. by destruct table.
Qed.

Lemma parseJobListings_sheet_rejected names table :
  ¬ Forall rowAccepted table →
  JobListingJson.parseJobListings (sheet (headerJs names) (rowToJs <$> table)) = [].
Proof.
  intros Hno.
  destruct (parseJobListings_cases (sheet (headerJs names) (rowToJs <$> table)))
    as [[_ ->]|(props & names0 & table0 & [= <-] & _ & Hv & _ & Hrows & _)];
    [done|].
  injection Hv as _ Htable. apply (inj (fmap rowToJs)) in Htable. by subst.
Qed.

(** Moving the columns of a sheet, header and cells alike, changes
    nothing: when every row has one cell for each name of the header, and
    a second sheet holds row by row the same cells under the same names
    in another order of columns, the two sheets parse to the same
    listings. *)
Theorem column_order_irrelevant (names names' : list string)
    (table table' : list (list Cell)) :
  headerAccepted names →
  Forall2 (λ row row', sameColumns names row names' row') table table' →
  JobListingJson.parseJobListings (sheet (headerJs names') (rowToJs <$> table'))
  = JobListingJson.parseJobListings (sheet (headerJs names) (rowToJs <$> table)).
Proof.
  intros Hhdr Hrows.
  destruct Hrows as [|row row' table table' Hrow Hrows].
  { by rewrite !parseJobListings_no_rows. }
  assert (Forall2 (λ row row', sameColumns names row names' row')
            (row :: table) (row' :: table')) as Hall by by constructor.
  assert (headerAccepted names') as Hhdr'.
  { eapply headerAccepted_Permutation; [|done]. by eapply sameColumns_names. }
  clear Hrow Hrows. revert Hall.
  generalize (row :: table) (row' :: table'). clear row row' table table'.
  intros table table' Hall.
  assert (Forall rowAccepted table ↔ Forall rowAccepted table') as Hacc.
  { induction Hall as [|row row' table table' Hrow _ IH]; [done|].
    rewrite !Forall_cons, IH. unfold rowAccepted.
    by rewrite (sameColumns_cells _ _ _ _ Hrow). }
  destruct (decide (Forall (λ row, (length requiredFields ≤ length row)%nat
                                   ∧ Forall (λ c, validCell c = true) row) table))
    as [Hyes|Hno].
  - rewrite !parseJobListings_sheet by (done || by apply Hacc).
    clear Hacc Hyes.
    induction Hall as [|row row' table table' Hrow _ IH]; [done|].
    assert (rowListing names' row' = rowListing names row) as Hlisting.
    { unfold rowListing.
      by rewrite (rowToRecord_sameColumns names row names' row')
        by (done || apply Hhdr). }
    cbn [omap list_omap]. by rewrite Hlisting, IH.
  - rewrite !parseJobListings_sheet_rejected; [done|done|].
    intros Hyes. by apply Hno, Hacc.
Qed.

End ColumnOrder.

(** ** How many listings *)

Section Count.
Context {formats : StringFormats}.

(** No row yields more than one listing and the header yields none: the
    output is never longer than the table below the header. *)
Theorem at_most_one_listing_per_row props (header : JsValue)
    (dataRows : list JsValue) :
  getProp "values" props = JArr (header :: dataRows) →
  (length (JobListingJson.parseJobListings (JObj props)) ≤ length dataRows)%nat.
Proof.
  intros Hvalues.
  destruct (parseJobListings_cases (JObj props))
    as [[_ ->]|(props' & names & table & [= <-] & _ & Hv & _ & _ & _ & ->)];
    [simpl; lia|].
  rewrite Hvalues in Hv. injection Hv as _ ->.
  rewrite length_fmap. clear Hvalues.
  induction table as [|row table IH]; [done|].
  cbn [omap list_omap]. destruct (rowListing names row); simpl; lia.
Qed.

End Count.

(** The Acme, bad-URL and Globex rows: three rows, two listings. *)
Lemma at_most_one_listing_per_row_witness :
  (length (Examples.parse
             (JObj [("majorDimension", JStr "ROWS");
                    ("values",
                     JArr [Examples.header9; JArr Examples.acmeRow;
                           JArr Examples.badUrlRow; JArr Examples.globexRow])]))
   ≤ length [JArr Examples.acmeRow; JArr Examples.badUrlRow;
             JArr Examples.globexRow])%nat.
Proof.
  apply (@at_most_one_listing_per_row exampleFormats
           [("majorDimension", JStr "ROWS");
            ("values",
             JArr [Examples.header9; JArr Examples.acmeRow;
                   JArr Examples.badUrlRow; JArr Examples.globexRow])]
           Examples.header9).
  reflexivity.
Defined.

(** ** Instances *)

(** A response with a property the validator does not read. *)
Lemma apiResponseValidator_idempotent_witness :
  SheetsApi.apiResponseValidator
    (SheetsApi.responseToJs
       (SheetsApi.mkSheetsApiResponse "Sheet1!A1:B2"
          [[CStr "company"; CStr "jobTitle"]; [CStr "Acme"; CBool true]]))
  = Some (SheetsApi.mkSheetsApiResponse "Sheet1!A1:B2"
            [[CStr "company"; CStr "jobTitle"]; [CStr "Acme"; CBool true]]).
Proof.
  apply (apiResponseValidator_idempotent
           (JObj [("spreadsheetId", JStr "1BxiMVs0XRA5");
                  ("range", JStr "Sheet1!A1:B2");
                  ("majorDimension", JStr "ROWS");
                  ("values", JArr [JArr [JStr "company"; JStr "jobTitle"];
                                   JArr [JStr "Acme"; JBool true]])])).
  vm_compute. reflexivity.
Defined.

(** The Acme listing of the happy path, traced back to its row. *)
Lemma listing_fields_come_from_row_witness :
  ∃ names cells,
    Examples.header9 = headerJs names
    ∧ rowToJs cells ∈ [JArr Examples.acmeRow]
    ∧ (∀ rf s, requiredProperties Examples.acmeListing !! rf = Some s →
         ∃ c, names !! c = Some rf ∧ cells !! c = Some (CStr s))
    ∧ (∀ k cell, extraFields Examples.acmeListing !! k = Some cell →
         ∃ c, cells !! c = Some cell
              ∧ (names !! c = Some k ∨ (k = "" ∧ length names ≤ c)%nat)).
Proof.
  apply (@listing_fields_come_from_row exampleFormats
           [("majorDimension", JStr "ROWS");
            ("values", JArr [Examples.header9; JArr Examples.acmeRow])]
           Examples.header9 [JArr Examples.acmeRow] Examples.acmeListing).
  - reflexivity.
  - assert (@JobListingJson.parseJobListings exampleFormats
              (JObj [("majorDimension", JStr "ROWS");
                     ("values", JArr [Examples.header9; JArr Examples.acmeRow])])
            = [Examples.acmeListing]) as -> by (vm_compute; reflexivity).
    apply list_elem_of_here.
Defined.

(** The Acme row yields a listing; each required column holds a text
    that meets its constraint. *)
Lemma row_yields_listing_iff_witness :
  is_Some (@jobListingValidator exampleFormats
             (rowToRecord (requiredFields ++ ["source"]) Examples.acmeCells)) ↔
  ∀ rf, rf ∈ requiredFields →
    ∃ c s, (requiredFields ++ ["source"]) !! c = Some rf
           ∧ Examples.acmeCells !! c = Some (CStr s)
           ∧ @fieldAccepts exampleFormats rf s = true.
Proof.
  apply (@row_yields_listing_iff exampleFormats (requiredFields ++ ["source"])
           Examples.acmeCells).
  - split_and!.
    + vm_compute. lia.
    + apply (bool_decide_unpack _). vm_compute. reflexivity.
    + intros rf Hrf. apply elem_of_app. by left.
  - repeat constructor.
Defined.

(** The Acme and Globex rows with the [source] column moved to the
    front. *)
Lemma column_order_irrelevant_witness :
  Examples.parse
    (sheet
       (headerJs ("source" :: requiredFields))
       (rowToJs <$>
          [[CStr "LinkedIn"; CStr "Acme"; CStr "Engineer"; CStr "Remote";
            CStr "Applied"; CStr "https://acme.example/job"; CStr "";
            CStr "2024-01-01T00:00:00.000Z"; CStr "2024-01-02T00:00:00.000Z"];
           [CNum 3%float; CStr "Globex"; CStr "Analyst"; CStr ""; CStr "Interview";
            CStr ""; CStr "met the team"; CStr "2024-02-01T09:30:00Z";
            CStr "2024-02-03T10:00:00Z"]]))
  = Examples.parse
      (sheet (headerJs (requiredFields ++ ["source"]))
         (rowToJs <$> [Examples.acmeCells; Examples.globexCells])).
Proof.
  apply (@column_order_irrelevant exampleFormats (requiredFields ++ ["source"])).
  - split_and!.
    + vm_compute. lia.
    + apply (bool_decide_unpack _). vm_compute. reflexivity.
    + intros rf Hrf. apply elem_of_app. by left.
  - apply Forall2_cons_2; [|apply Forall2_cons_2; [|apply Forall2_nil_2]].
    + split_and!; [reflexivity|reflexivity|].
      exact (Permutation_cons_append
               (zip requiredFields (take 8 Examples.acmeCells))
               ("source", CStr "LinkedIn")).
    + split_and!; [reflexivity|reflexivity|].
      exact (Permutation_cons_append
               (zip requiredFields (take 8 Examples.globexCells))
               ("source", CNum 3%float)).
Defined.

(** ** [debounce] *)

(** The delay is checked before anything is set up. *)
Example debounce_delays :
  Debounce.debounce 250 = inr Debounce.CallDebounced
  ∧ Debounce.debounce 0 = inr Debounce.TheCallback
  ∧ Debounce.debounce (-0) = inr Debounce.TheCallback
  ∧ Debounce.debounce 0.5 = inl (Debounce.NotANonNegativeInteger 0.5)
  ∧ Debounce.debounce (-1) = inl (Debounce.NotANonNegativeInteger (-1))
  ∧ Debounce.debounce nan = inl (Debounce.NotANonNegativeInteger nan)
  ∧ Debounce.debounce infinity = inl (Debounce.NotANonNegativeInteger infinity).
Proof. vm_compute. repeat split. Qed.

(** The three ways out of [debounce], by the delay alone: the closure
    [callDebounced] for a whole number of milliseconds above zero, the
    callback itself for a zero of either sign, and the error for every
    other number.  Of the numbers that are whole and not below zero, the
    ones that are not equal to zero are above it. *)
Theorem debounce_cases (debounceTimeMs : float) :
  Debounce.debounce debounceTimeMs
  = if Debounce.isInteger debounceTimeMs && PrimFloat.ltb 0 debounceTimeMs
    then inr Debounce.CallDebounced
    else if PrimFloat.eqb debounceTimeMs 0
    then inr Debounce.TheCallback
    else inl (Debounce.NotANonNegativeInteger debounceTimeMs).
Proof.
  unfold Debounce.debounce, Debounce.isInteger.
  rewrite !FloatAxioms.ltb_spec, FloatAxioms.eqb_spec.
  change (Prim2SF 0) with (S754_zero false).
  destruct (Prim2SF debounceTimeMs) as [sign|sign| |sign mantissa exponent];
    unfold SFltb, SFeqb, SFcompare.
  - done.
  - by destruct sign.
  - done.
  - by destruct (bool_decide _ || bool_decide _), sign.
Qed.

Section DebounceLemmas.
Context {Args : Type}.
Implicit Types (σ : Debounce.State Args) (events : list (Debounce.Event Args)).

Lemma calls_snoc events e :
  Debounce.calls (events ++ [e])
  = match e with
    | Debounce.Call args => args :: Debounce.calls events
    | Debounce.Fire _ _ => Debounce.calls events
    end.
Proof. unfold Debounce.calls. rewrite omap_app, reverse_app. by destruct e. Qed.

Lemma runEvents_snoc firstId events e :
  Debounce.runEvents firstId (events ++ [e])
  = Debounce.step (Debounce.runEvents firstId events) e.
Proof. unfold Debounce.runEvents. by rewrite foldl_app. Qed.

(** A call leaves one timeout pending, for its own arguments, once at
    most the timeout of [debounceId] was pending before. *)
Lemma callDebounced_pending args σ :
  (∀ id, is_Some (Debounce.timers σ !! id) → Debounce.debounceId σ = Some id) →
  Debounce.timers (Debounce.callDebounced args σ) = {[Debounce.nextId σ := args]}
  ∧ Debounce.debounceId (Debounce.callDebounced args σ) = Some (Debounce.nextId σ)
  ∧ Debounce.invoked (Debounce.callDebounced args σ) = Debounce.invoked σ.
Proof.
  intros Hone. unfold Debounce.callDebounced.
  assert (match Debounce.debounceId σ with
          | Some id => delete id (Debounce.timers σ)
          | None => Debounce.timers σ
          end = ∅) as Hcleared.
  { apply map_empty. intros id'. destruct (Debounce.debounceId σ) as [id|] eqn:Hid.
    - destruct (decide (id = id')) as [->|Hne]; [by rewrite lookup_delete_eq|].
      rewrite lookup_delete_ne by done. apply eq_None_not_Some. intros Hsome.
      apply Hone in Hsome. congruence.
    - apply eq_None_not_Some. intros Hsome. by apply Hone in Hsome. }
  destruct (Debounce.debounceId σ); simpl in *; by rewrite Hcleared, insert_empty.
Qed.

(** While the callback stays out of the debounced function: either one
    timeout is pending, the one of [debounceId], set by the latest call,
    and the callback has run for earlier calls only; or none is pending
    and the callback has last run for the latest call. *)
Lemma debounce_invariant firstId events :
  Forall Debounce.quiet events →
  let σ := Debounce.runEvents firstId events in
  (∃ id args rest,
      Debounce.timers σ = {[id := args]} ∧ Debounce.debounceId σ = Some id
      ∧ Debounce.calls events = args :: rest
      ∧ Debounce.invoked σ `sublist_of` rest)
  ∨ (Debounce.timers σ = ∅
     ∧ Debounce.invoked σ `sublist_of` Debounce.calls events
     ∧ head (Debounce.invoked σ) = head (Debounce.calls events)).
Proof.
  induction events as [|e events IH] using rev_ind; intros Hquiet; simpl.
  { right. done. }
  apply Forall_app in Hquiet as [Hquiet He]. apply Forall_inv in He.
  specialize (IH Hquiet). simpl in IH.
  rewrite runEvents_snoc, calls_snoc.
  set (σ := Debounce.runEvents firstId events) in *. clearbody σ.
  destruct e as [args'|id' run]; unfold Debounce.step.
  - left. exists (Debounce.nextId σ), args', (Debounce.calls events).
    destruct (callDebounced_pending args' σ) as (-> & -> & ->).
    { destruct IH as [(id & args & rest & -> & -> & _)|(-> & _)]; intros id' [a Ha].
      - apply lookup_singleton_Some in Ha as [-> _]. done.
      - by rewrite lookup_empty in Ha. }
    split_and!; try done.
    destruct IH as [(id & args & rest & _ & _ & -> & Hsub)|(_ & Hsub & _)];
      [by apply sublist_cons|done].
  - unfold Debounce.quiet in He. unfold Debounce.fire.
    destruct IH as [(id & args & rest & Htimers & Hid & Hcalls & Hsub)
                   |(Htimers & Hsub & Hhead)].
    + rewrite Htimers. destruct (decide (id = id')) as [<-|Hne].
      * rewrite lookup_singleton_eq, He. simpl. right.
        rewrite delete_singleton_eq, Hcalls.
        destruct (Debounce.returns run); simpl;
          (split_and!; [done|by apply sublist_skip|done]).
      * rewrite lookup_singleton_ne by done. left. by exists id, args, rest.
    + rewrite Htimers, lookup_empty. by right.
Qed.

(** At most one timeout is pending, as long as the callback stays out of
    the debounced function: a pending timeout is the one [debounceId]
    names, it is the only one, and it holds the arguments of the latest
    call. *)
Theorem debounce_one_pending_timeout firstId events id args :
  Forall Debounce.quiet events →
  Debounce.timers (Debounce.runEvents firstId events) !! id = Some args →
  Debounce.timers (Debounce.runEvents firstId events) = {[id := args]}
  ∧ Debounce.debounceId (Debounce.runEvents firstId events) = Some id
  ∧ head (Debounce.calls events) = Some args.
Proof.
  intros Hquiet Hpending.
  destruct (debounce_invariant firstId events Hquiet)
    as [(id' & args' & rest & Htimers & Hid & Hcalls & _)|(Htimers & _)].
  - rewrite Htimers in Hpending.
    apply lookup_singleton_Some in Hpending as [-> ->].
    by rewrite Htimers, Hid, Hcalls.
  - by rewrite Htimers, lookup_empty in Hpending.
Qed.

(** As long as the callback stays out of the debounced function, it runs
    with the arguments of calls only, in the order of those calls and at
    most once for each; and when no timeout is pending, its latest run
    was for the latest call. *)
Theorem debounce_runs_for_calls firstId events :
  Forall Debounce.quiet events →
  Debounce.invoked (Debounce.runEvents firstId events)
    `sublist_of` Debounce.calls events
  ∧ (Debounce.timers (Debounce.runEvents firstId events) = ∅ →
     head (Debounce.invoked (Debounce.runEvents firstId events))
     = head (Debounce.calls events)).
Proof.
  intros Hquiet.
  destruct (debounce_invariant firstId events Hquiet)
    as [(id & args & rest & Htimers & _ & Hcalls & Hsub)|(_ & Hsub & Hhead)].
  - rewrite Hcalls. split; [by apply sublist_cons|].
    rewrite Htimers. intros Hempty.
    by apply (f_equal (lookup id)) in Hempty;
      rewrite lookup_singleton_eq, lookup_empty in Hempty.
  - done.
Qed.

(** A burst of calls, then the timeout coming due: whatever the number
    of calls, the timeout of the last call is the one timeout pending
    after them, every earlier one having been cleared; when it comes due
    the callback runs once, with the arguments of the last call, and
    nothing is pending after a run that stays out of the debounced
    function. *)
Theorem debounce_burst firstId (burst : list Args) (last : Args) run :
  ∃ id,
    Debounce.debounceId
      (Debounce.runEvents firstId (Debounce.Call <$> burst ++ [last])) = Some id
    ∧ Debounce.timers
        (Debounce.runEvents firstId (Debounce.Call <$> burst ++ [last]))
      = {[id := last]}
    ∧ Debounce.invoked
        (Debounce.runEvents firstId (Debounce.Call <$> burst ++ [last])) = []
    ∧ Debounce.invoked
        (Debounce.fire id run
           (Debounce.runEvents firstId (Debounce.Call <$> burst ++ [last])))
      = [last]
    ∧ (Debounce.reentrant run = [] →
       Debounce.timers
         (Debounce.fire id run
            (Debounce.runEvents firstId (Debounce.Call <$> burst ++ [last])))
       = ∅).
Proof.
  assert (∀ calls : list Args,
            (∀ id, is_Some (Debounce.timers
                              (Debounce.runEvents firstId (Debounce.Call <$> calls))
                            !! id) →
                   Debounce.debounceId
                     (Debounce.runEvents firstId (Debounce.Call <$> calls)) = Some id)
            ∧ Debounce.invoked
                (Debounce.runEvents firstId (Debounce.Call <$> calls)) = [])
    as Hcalls.
  { induction calls as [|a calls [IHone IHinvoked]] using rev_ind.
    - split; [|done]. intros id [a Ha]. cbn in Ha. by rewrite lookup_empty in Ha.
    - rewrite fmap_snoc, runEvents_snoc. unfold Debounce.step.
      destruct (callDebounced_pending a _ IHone) as (-> & -> & ->).
      split; [|done]. intros id [a' Ha'].
      by apply lookup_singleton_Some in Ha' as [-> _]. }
  destruct (Hcalls burst) as [Hone Hinvoked].
  rewrite fmap_snoc, runEvents_snoc. unfold Debounce.step.
  destruct (callDebounced_pending last _ Hone) as (Htimers & Hid & Hinv).
  set (σ1 := Debounce.callDebounced last _) in *.
  eexists. split; [exact Hid|]. clearbody σ1.
  split; [exact Htimers|]. split; [by rewrite Hinv|].
  unfold Debounce.fire. rewrite Htimers, lookup_singleton_eq.
  assert (∀ (reentrant : list Args) σ,
            Debounce.invoked (foldl (λ σ a, Debounce.callDebounced a σ) σ reentrant)
            = Debounce.invoked σ) as Hfold.
  { induction reentrant as [|a reentrant IH]; intros σ; simpl; [done|].
    rewrite IH. unfold Debounce.callDebounced.
    by destruct (Debounce.debounceId σ). }
  split.
  - destruct (Debounce.returns run); cbn [Debounce.invoked]; rewrite Hfold;
      cbn [Debounce.invoked]; by rewrite Hinv, Hinvoked.
  - intros ->. rewrite delete_singleton_eq.
    by destruct (Debounce.returns run).
Qed.

End DebounceLemmas.

(** The condition on the callback is needed: a callback that calls the
    debounced function from within its run leaves [debounceId] at [null]
    with its timeout pending, so the next call cancels nothing and two
    timeouts are pending. *)
Example reentrant_callback_two_timeouts :
  let σ := Debounce.runEvents 1
             [Debounce.Call "a"; Debounce.Fire 1 (Debounce.mkRun ["b"] true);
              Debounce.Call "c"] in
  Debounce.timers σ = {[2%nat := "b"; 3%nat := "c"]}
  ∧ Debounce.invoked
      (Debounce.fire 2 (Debounce.mkRun [] true)
         (Debounce.fire 3 (Debounce.mkRun [] true) σ))
    = ["b"; "c"; "a"].
Proof. vm_compute. done. Qed.

Lemma debounce_one_pending_timeout_witness :
  Debounce.timers
    (Debounce.runEvents 1
       [Debounce.Call "a"; Debounce.Call "b";
        Debounce.Fire 1 (Debounce.mkRun [] true)])
  = {[2%nat := "b"]}
  ∧ Debounce.debounceId
      (Debounce.runEvents 1
         [Debounce.Call "a"; Debounce.Call "b";
          Debounce.Fire 1 (Debounce.mkRun [] true)])
    = Some 2%nat
  ∧ head (Debounce.calls
            [Debounce.Call "a"; Debounce.Call "b";
             Debounce.Fire 1 (Debounce.mkRun [] true)])
    = Some "b".
Proof.
  apply (debounce_one_pending_timeout 1
           [Debounce.Call "a"; Debounce.Call "b";
            Debounce.Fire 1 (Debounce.mkRun [] true)] 2 "b").
  - repeat constructor.
  - vm_compute. reflexivity.
Defined.

Lemma debounce_runs_for_calls_witness :
  Debounce.invoked
    (Debounce.runEvents 1
       [Debounce.Call "a"; Debounce.Call "b";
        Debounce.Fire 2 (Debounce.mkRun [] false); Debounce.Call "c";
        Debounce.Fire 3 (Debounce.mkRun [] true)])
    `sublist_of`
    Debounce.calls
      [Debounce.Call "a"; Debounce.Call "b";
       Debounce.Fire 2 (Debounce.mkRun [] false); Debounce.Call "c";
       Debounce.Fire 3 (Debounce.mkRun [] true)]
  ∧ (Debounce.timers
       (Debounce.runEvents 1
          [Debounce.Call "a"; Debounce.Call "b";
           Debounce.Fire 2 (Debounce.mkRun [] false); Debounce.Call "c";
           Debounce.Fire 3 (Debounce.mkRun [] true)]) = ∅ →
     head (Debounce.invoked
             (Debounce.runEvents 1
                [Debounce.Call "a"; Debounce.Call "b";
                 Debounce.Fire 2 (Debounce.mkRun [] false); Debounce.Call "c";
                 Debounce.Fire 3 (Debounce.mkRun [] true)]))
     = head (Debounce.calls
               [Debounce.Call "a"; Debounce.Call "b";
                Debounce.Fire 2 (Debounce.mkRun [] false); Debounce.Call "c";
                Debounce.Fire 3 (Debounce.mkRun [] true)])).
Proof.
  apply (debounce_runs_for_calls 1
           [Debounce.Call "a"; Debounce.Call "b";
            Debounce.Fire 2 (Debounce.mkRun [] false); Debounce.Call "c";
            Debounce.Fire 3 (Debounce.mkRun [] true)]).
  repeat constructor.
Defined.
